(** * addon-metadata-operator: the [mtcli validate] command

    A shallow embedding of the validator registry
    ([pkg/validators]), of rule AM0004 and of the [validate] sub-command
    ([internal/cmd/validate.go]), with the properties of the validation
    engine proved about them.

    Conventions.
    - A Go [string] is a Rocq [string]; a Go [error] is identified with
      its message and [option error] has [None] for [nil].
    - A Go [map[string]T] is a [gmap string T].
    - A call that may panic returns a [go A]: [Return a] or [Panicked msg].
    - The command runs in the [Proc] monad, which records every call that
      leaves the process (file system, network, output) in a trace and
      stops at [os.Exit] or at a panic. *)

From Stdlib Require Import ZArith Ascii String List Lia.
From stdpp Require Import base option list sorting strings gmap.

Local Open Scope Z_scope.

(** ** Go values *)

Definition error : Type := string.

Inductive go (A : Type) : Type :=
| Return (a : A)
| Panicked (msg : string).
Arguments Return {A} a.
Arguments Panicked {A} msg.

Definition go_bind {A B} (m : go A) (k : A → go B) : go B :=
  match m with
  | Return a => k a
  | Panicked msg => Panicked msg
  end.

Definition returns {A} (m : go A) : Prop := ∃ a, m = Return a.
Definition panics {A} (m : go A) : Prop := ∃ msg, m = Panicked msg.

(** ** The subject of a validation and the rules ([pkg/types]) *)

Module types.

(** Modelled from the spec: the declaration of the addon metadata is not
    part of the sources; the fields are the ones the code reads
    ([ID], [Icon], [OperatorName] and the pointer [IndexImage]). *)
Record AddonMetadataSpec : Type := {
  ID : string;
  Icon : string;
  OperatorName : string;
  IndexImage : option string
}.

(** Modelled from the spec: the Subject is the addon's metadata together
    with the bundle manifests extracted from the index image. A bundle is
    kept abstract, as its name. *)
Record MetaBundle : Type := {
  AddonMeta : AddonMetadataSpec;
  Bundles : list string
}.

Definition NewMetaBundle (meta : AddonMetadataSpec) (bundles : list string)
  : MetaBundle :=
  {| AddonMeta := meta; Bundles := bundles |}.

(** What a runner returns: [(passed, message, error)]. *)
Definition RunnerResult : Type := bool * string * option error.

(** Modelled from the spec: a rule has a [Code], a [Name], a [Description]
    and a [Runner]. The runner is a Go func value, so it may be [nil]
    ([None]), as it is in the zero [Validator]. *)
Record Validator : Type := {
  Code : string;
  Name : string;
  Description : string;
  Runner : option (MetaBundle → RunnerResult)
}.

Definition zero_Validator : Validator :=
  {| Code := ""; Name := ""; Description := ""; Runner := None |}.

End types.
Import types.

(** ** The registry ([pkg/validators]) *)

Module validators.

Record defaultRegistry : Type := { Data : gmap string Validator }.

Definition NewValidatorsRegistry : defaultRegistry := {| Data := ∅ |}.

(** [log.Panicf] writes the message and panics with it; the assignment
    after it is not reached. *)
Definition Add (r : defaultRegistry) (v : Validator) : go defaultRegistry :=
  match Data r !! Code v with
  | Some _ => Panicked ("Validator code " +:+ Code v +:+ " already exist.")
  | None => Return {| Data := <[Code v := v]> (Data r) |}
  end.

Definition Len (r : defaultRegistry) : Z := Z.of_nat (size (Data r)).

Definition All (r : defaultRegistry) : gmap string Validator := Data r.

Definition Get (r : defaultRegistry) (k : string) : Validator * bool :=
  match Data r !! k with
  | Some v => (v, true)
  | None => (zero_Validator, false)
  end.

(** The [init] functions of the rule files call [Registry.Add] one after
    the other, in an order the rule files do not choose. *)
Fixpoint register_all (r : defaultRegistry) (vs : list Validator)
  : go defaultRegistry :=
  match vs with
  | [] => Return r
  | v :: vs' => go_bind (Add r v) (λ r', register_all r' vs')
  end.

(** The calls the registry offers, and the registry they leave behind
    (a panicking [Add] leaves the map as it was). *)
Inductive RegistryCall : Type :=
| CallAdd (v : Validator)
| CallLen
| CallAll
| CallGet (k : string).

Definition registry_after (r : defaultRegistry) (c : RegistryCall)
  : defaultRegistry :=
  match c with
  | CallAdd v => match Add r v with Return r' => r' | Panicked _ => r end
  | CallLen | CallAll | CallGet _ => r
  end.

End validators.

(** ** Rule AM0004 ([pkg/validators/am0004_icon_base64.go]) *)

Module am0004.
Section runner.

(** [base64.StdEncoding.DecodeString] and [png.Decode] belong to Go's
    standard library; the rule is stated for whatever they answer.
    Of [png.Decode] only the error is used. *)
Variable base64_DecodeString : string → list Byte.byte + error.
Variable png_Decode : list Byte.byte → option error.

Definition ValidateIconBase64 (metabundle : MetaBundle) : RunnerResult :=
  let icon := Icon (AddonMeta metabundle) in
  if decide (icon = "") then
    (false,
     "`icon` not found under the addon metadata of "
       +:+ ID (AddonMeta metabundle),
     None)
  else
    match base64_DecodeString icon with
    | inr _ =>
        (false,
         "`icon` found to be improperly base64 populated under the addon metadata of "
           +:+ ID (AddonMeta metabundle),
         None)
    | inl b64decoded =>
        let err := png_Decode b64decoded in
        (bool_decide (err = None),
         "`icon`'s base64 value found to correspond to a non-png data under the addon metadata of "
           +:+ ID (AddonMeta metabundle),
         None)
    end.

Definition AM0004 : Validator :=
  {| Code := "AM0004";
     Name := "icon_base64";
     Description :=
       "Ensure that `icon` in Addon metadata is rightfully base64 encoded";
     Runner := Some ValidateIconBase64 |}.

End runner.
End am0004.

(** ** Semantic versions ([golang.org/x/mod/semver])

    The package behind [semver.IsValid], which [verifyVersion] calls; it
    is a dependency of the repository, embedded here function by
    function. [IsValid] is [parse] with its result dropped; [parse] reads
    [vMAJOR[.MINOR[.PATCH[-PRERELEASE][+BUILD]]]]. A result
    [(t, rest, ok)] of the package is an [option (t * rest)]. *)

Module semver.

Definition is_digit (c : ascii) : bool :=
  ((48 <=? N.of_nat (nat_of_ascii c))%N && (N.of_nat (nat_of_ascii c) <=? 57)%N)%bool.

(** [isIdentChar]: ['A'..'Z'], ['a'..'z'], ['0'..'9'] or ['-']. *)
Definition isIdentChar (c : ascii) : bool :=
  let n := N.of_nat (nat_of_ascii c) in
  ((65 <=? n)%N && (n <=? 90)%N
   || (97 <=? n)%N && (n <=? 122)%N
   || (48 <=? n)%N && (n <=? 57)%N
   || Ascii.eqb c "-")%bool.

(** The longest prefix of digits and what follows it: the loop
    [for i < len(v) && '0' <= v[i] && v[i] <= '9' { i++ }] read as
    [(v[:i], v[i:])]. *)
Fixpoint span_digits (v : string) : string * string :=
  match v with
  | EmptyString => (EmptyString, EmptyString)
  | String c v' =>
      if is_digit c then
        let '(t, rest) := span_digits v' in (String c t, rest)
      else (EmptyString, v)
  end.

Definition parseInt (v : string) : option (string * string) :=
  match v with
  | EmptyString => None
  | String c _ =>
      if negb (is_digit c) then None
      else
        let '(t, rest) := span_digits v in
        if (Ascii.eqb c "0" && negb (String.length t =? 1)%nat)%bool then None
        else Some (t, rest)
  end.

(** [isBadNum]: all digits, more than one of them, and a leading zero. *)
Definition isBadNum (v : string) : bool :=
  let '(t, rest) := span_digits v in
  (String.eqb rest "" && (1 <? String.length t)%nat
   && match v with String c _ => Ascii.eqb c "0" | EmptyString => false end)%bool.

(** The loop of [parsePrerelease], started after the ['-']: [cur] is
    [v[start:i]], the identifier being read. The result is [v[i:]]. *)
Fixpoint prerelease_loop (v cur : string) : option string :=
  match v with
  | EmptyString =>
      if (String.eqb cur "" || isBadNum cur)%bool then None else Some v
  | String c v' =>
      if Ascii.eqb c "+" then
        if (String.eqb cur "" || isBadNum cur)%bool then None else Some v
      else if (negb (isIdentChar c) && negb (Ascii.eqb c "."))%bool then None
      else if Ascii.eqb c "." then
        if (String.eqb cur "" || isBadNum cur)%bool then None
        else prerelease_loop v' ""
      else prerelease_loop v' (cur +:+ String c "")
  end.

Definition parsePrerelease (v : string) : option string :=
  match v with
  | String "-" v' => prerelease_loop v' ""
  | _ => None
  end.

(** The loop of [parseBuild], started after the ['+']; it reads to the
    end of the string. *)
Fixpoint build_loop (v cur : string) : option string :=
  match v with
  | EmptyString => if String.eqb cur "" then None else Some v
  | String c v' =>
      if (negb (isIdentChar c) && negb (Ascii.eqb c "."))%bool then None
      else if Ascii.eqb c "." then
        if String.eqb cur "" then None else build_loop v' ""
      else build_loop v' (cur +:+ String c "")
  end.

Definition parseBuild (v : string) : option string :=
  match v with
  | String "+" v' => build_loop v' ""
  | _ => None
  end.

(** What follows the patch number: an optional prerelease, an optional
    build, and nothing else. *)
Definition parse_tail (v : string) : bool :=
  let after_pre :=
    match v with
    | String "-" _ => parsePrerelease v
    | _ => Some v
    end in
  match after_pre with
  | None => false
  | Some v1 =>
      let after_build :=
        match v1 with
        | String "+" _ => parseBuild v1
        | _ => Some v1
        end in
      match after_build with
      | None => false
      | Some v2 => String.eqb v2 ""
      end
  end.

(** [parse], keeping its [ok] result. *)
Definition parse (v : string) : bool :=
  match v with
  | String "v" v0 =>
      match parseInt v0 with
      | None => false
      | Some (_, EmptyString) => true
      | Some (_, String "." v1) =>
          match parseInt v1 with
          | None => false
          | Some (_, EmptyString) => true
          | Some (_, String "." v2) =>
              match parseInt v2 with
              | None => false
              | Some (_, v3) => parse_tail v3
              end
          | Some _ => false
          end
      | Some _ => false
      end
  | _ => false
  end.

Definition IsValid (v : string) : bool := parse v.

End semver.

(** ** The selection filter and the orchestrator ([pkg/validate]) *)

Module validate.
Import validators.

(** Modelled from the spec: [pkg/validate] (the filter, [NewFilter],
    [Includes] and the run over the selected rules) is not part of the
    sources, only its calls in [validateMain] are. A filter is two sets
    of codes. *)
Record validatorsFilter : Type := {
  enabled : gset string;
  disabled : gset string
}.

(** Modelled from the spec: the fields of a comma-separated list, as
    [strings.Split(s, ",")] gives them; [cur] is the field being read. *)
Fixpoint split_comma (s cur : string) : list string :=
  match s with
  | EmptyString => [cur]
  | String c s' =>
      if Ascii.eqb c "," then cur :: split_comma s' ""
      else split_comma s' (cur +:+ String c "")
  end.

(** Modelled from the spec: white space is tab, line feed, vertical
    tab, form feed, carriage return and space. *)
Definition isSpace (c : ascii) : bool :=
  let n := N.of_nat (nat_of_ascii c) in
  ((9 <=? n)%N && (n <=? 13)%N || (n =? 32)%N)%bool.

(** Modelled from the spec: a string of white space only. *)
Fixpoint all_space (s : string) : bool :=
  match s with
  | EmptyString => true
  | String c s' => isSpace c && all_space s'
  end.

(** Modelled from the spec: the white space before and after a field
    is dropped, [trim_left] at the front and [trim_right] at the end. *)
Fixpoint trim_left (s : string) : string :=
  match s with
  | EmptyString => EmptyString
  | String c s' => if isSpace c then trim_left s' else s
  end.

(** Modelled from the spec: see [trim_left]. *)
Fixpoint trim_right (s : string) : string :=
  match s with
  | EmptyString => EmptyString
  | String c s' =>
      let r := trim_right s' in
      if (isSpace c && String.eqb r "")%bool then EmptyString
      else String c r
  end.

(** Modelled from the spec: surrounding white space trimmed, as
    [strings.TrimSpace] does for the white space above. *)
Definition TrimSpace (s : string) : string := trim_right (trim_left s).

(** Modelled from the spec: a comma-separated list is read field by
    field, surrounding white space trimmed, empty fields ignored; the
    empty string gives no code. *)
Definition parseCodes (csv : string) : list string :=
  filter (λ c, c ≠ "") (TrimSpace <$> split_comma csv "").

(** Modelled from the spec: the listed codes that are no key of the
    registry. *)
Definition unknownCodes (reg : defaultRegistry) (codes : list string)
  : list string :=
  filter (λ c, Data reg !! c = None) codes.

(** Modelled from the spec: [NewFilter(disabledCSV, enabledCSV)] fails
    when both lists are non-empty and when a listed code is no key of the
    registry (the registry it is given, as it is at the call). *)
Definition NewFilter (reg : defaultRegistry) (disabledCSV enabledCSV : string)
  : validatorsFilter + error :=
  let ds := parseCodes disabledCSV in
  let es := parseCodes enabledCSV in
  if (bool_decide (ds ≠ []) && bool_decide (es ≠ []))%bool then
    inr "can't set both disabled and enabled, they are mutually exclusive"
  else
    match unknownCodes reg (ds ++ es) with
    | c :: _ => inr ("validator code '" +:+ c +:+ "' does not exist")
    | [] => inl {| enabled := list_to_set es; disabled := list_to_set ds |}
    end.

(** Modelled from the spec: allow-list if [enabled] is non-empty, else
    block-list if [disabled] is non-empty, else every rule. *)
Definition Includes (f : validatorsFilter) (rule : Validator) : bool :=
  if decide (enabled f ≠ ∅) then bool_decide (Code rule ∈ enabled f)
  else if decide (disabled f ≠ ∅) then bool_decide (Code rule ∉ disabled f)
  else true.

(** Modelled from the spec: an entry of [failures], [{Code, message}]. *)
Record Outcome : Type := { oCode : string; oMessage : string }.

(** Modelled from the spec: the order of the run, by [Code] ascending. *)
Definition code_le (v1 v2 : Validator) : Prop :=
  String.leb (Code v1) (Code v2) = true.

#[global] Instance code_le_dec (v1 v2 : Validator) : Decision (code_le v1 v2) :=
  decide (String.leb (Code v1) (Code v2) = true).

(** Modelled from the spec: the rules of a run are those of
    [registry.All()] the filter includes, by ascending [Code]. *)
Definition selected (f : validatorsFilter) (reg : defaultRegistry)
  : list Validator :=
  merge_sort code_le
    (filter (λ v, Includes f v = true) ((map_to_list (All reg)).*2)).

(** Modelled from the spec: what the loop over the rules carries, the
    counter of the rules that passed, [failures] and [hardErrors]. *)
Record tally : Type := {
  nPassed : nat;
  failures : list Outcome;
  hardErrors : list error
}.

(** Modelled from the spec: the tally before the first rule. *)
Definition tally0 : tally :=
  {| nPassed := 0; failures := []; hardErrors := [] |}.

(** Modelled from the spec: one rule against the tally. An error goes
    to [hardErrors]; otherwise a rule that did not pass goes to
    [failures] and one that passed is counted. A [nil] runner cannot be
    called: the call panics. *)
Definition run_rule (subject : MetaBundle) (t : tally) (rule : Validator)
  : go tally :=
  match Runner rule with
  | None => Panicked "invalid memory address or nil pointer dereference"
  | Some runner =>
      match runner subject with
      | (_, _, Some err) =>
          Return {| nPassed := nPassed t;
                    failures := failures t;
                    hardErrors := hardErrors t ++ [err] |}
      | (false, message, None) =>
          Return {| nPassed := nPassed t;
                    failures := failures t
                                  ++ [{| oCode := Code rule; oMessage := message |}];
                    hardErrors := hardErrors t |}
      | (true, _, None) =>
          Return {| nPassed := S (nPassed t);
                    failures := failures t;
                    hardErrors := hardErrors t |}
      end
  end.

(** Modelled from the spec: the loop over the rules, in order. *)
Fixpoint run_rules (subject : MetaBundle) (t : tally) (rules : list Validator)
  : go tally :=
  match rules with
  | [] => Return t
  | rule :: rules' =>
      go_bind (run_rule subject t rule) (λ t', run_rules subject t' rules')
  end.

(** Modelled from the spec: [Run(subject, filter, registry)] returns
    [(overallPassed, failures, hardErrors)]; the verdict is success when
    both lists are empty. *)
Definition Run (subject : MetaBundle) (f : validatorsFilter)
    (reg : defaultRegistry) : go (bool * list Outcome * list error) :=
  go_bind (run_rules subject tally0 (selected f reg))
    (λ t, Return (bool_decide (hardErrors t = []) && bool_decide (failures t = []),
                  failures t, hardErrors t)).

(** Modelled from the spec: [ValidateCLI(metabundle, filter)] is the run
    over the process-wide registry, as [validateMain] reads its result:
    the verdict and the hard errors. *)
Definition ValidateCLI (reg : defaultRegistry) (mb : MetaBundle)
    (f : validatorsFilter) : go (bool * list error) :=
  go_bind (Run mb f reg) (λ '(success, _, errs), Return (success, errs)).

End validate.

(** ** The process: trace, exit and panic *)

(** The calls [validateMain] makes outside the process, and its calls
    into the filter and the orchestrator. *)
Inductive Event : Type :=
| EvAbs (dir : string)
| EvStat (dir : string)
| EvLoad (dir env version : string)
| EvExtractBundles (indexImage operatorName : string)
| EvNewFilter (disabledCSV enabledCSV : string)
| EvValidateCLI
| EvPrintf (msg : string)
| EvPrintValidationErrors (errs : list error).

Inductive Halt : Type :=
| Exited (code : Z)
| Crashed (msg : string).

Definition Proc (A : Type) : Type := list Event * (A + Halt).

Definition proc_ret {A} (a : A) : Proc A := ([], inl a).

Definition proc_bind {A B} (k : A → Proc B) (m : Proc A) : Proc B :=
  match m with
  | (t, inl a) => let '(t', r) := k a in ((t ++ t')%list, r)
  | (t, inr h) => (t, inr h)
  end.

#[global] Instance Proc_ret : MRet Proc := @proc_ret.
#[global] Instance Proc_bind : MBind Proc := @proc_bind.

Definition emit (e : Event) : Proc unit := ([e], inl tt).
Definition os_Exit {A} (code : Z) : Proc A := ([], inr (Exited code)).
Definition crash {A} (msg : string) : Proc A := ([], inr (Crashed msg)).

Definition lift_go {A} (m : go A) : Proc A :=
  match m with
  | Return a => ([], inl a)
  | Panicked msg => ([], inr (Crashed msg))
  end.

Definition trace {A} (p : Proc A) : list Event := p.1.

(** The exit status of the process: 0 when [main] returns, the argument
    of [os.Exit], 2 when a panic is not recovered. *)
Definition exit_code (p : Proc unit) : Z :=
  match p.2 with
  | inl _ => 0
  | inr (Exited code) => code
  | inr (Crashed _) => 2
  end.

(** The metadata load and the pull and extraction of the bundles. *)
Definition is_load_or_extract (e : Event) : bool :=
  match e with
  | EvLoad _ _ _ | EvExtractBundles _ _ => true
  | _ => false
  end.

(** The calls that read the registry: the filter's construction and the
    run of the rules. *)
Definition reads_registry (e : Event) : bool :=
  match e with
  | EvNewFilter _ _ | EvValidateCLI => true
  | _ => false
  end.

Definition nl : string := String (ascii_of_nat 10) "".

(** ** The [validate] command ([internal/cmd/validate.go]) *)

Module cmd.
Import validators validate.

(** The four flags, with the values of the package variables as
    defaults. *)
Record Flags : Type := {
  validateEnv : string;
  validateVersion : string;
  validateDisabled : string;
  validateEnabled : string
}.

Definition defaultFlags : Flags :=
  {| validateEnv := "stage";
     validateVersion := "";
     validateDisabled := "";
     validateEnabled := "" |}.

(** What is outside the process: the working directory behind
    [filepath.Abs], the file system behind [os.Stat] (its [IsDir]), the
    metadata loader and the bundle extractor. *)
Record World : Type := {
  filepath_Abs : string → string + error;
  os_Stat : string → bool + error;
  MetaLoader_Load : string → string → string → AddonMetadataSpec + error;
  ExtractBundles : string → string → list string + error
}.

(** [path.IsAbs]: the path starts with a slash. *)
Definition path_IsAbs (p : string) : bool :=
  match p with
  | String "/" _ => true
  | _ => false
  end.

Definition verifyEnv (env : string) : option error :=
  if (bool_decide (env ≠ "integration") && bool_decide (env ≠ "stage")
      && bool_decide (env ≠ "production"))%bool then
    Some ("'" +:+ env +:+
          "' is not a valid environment; must be one of 'integration', 'stage' or 'production'")
  else None.

(** [verifyVersion], over the validity check it is given. *)
Definition verifyVersion_with (IsValid : string → bool) (version : string)
  : option error :=
  if decide (version = "") then None
  else if (bool_decide (version ≠ "latest") && negb (IsValid ("v" +:+ version)))%bool then
    Some ("'" +:+ version +:+
          "' is not a valid version; must be one of 'latest' or match 'MAJOR.MINOR.PATCH'")
  else None.

Definition verifyVersion : string → option error :=
  verifyVersion_with semver.IsValid.

(** What [fail] prints for the formatted message [msg]. *)
Definition fatal_text (msg : string) : string :=
  "A fatal error occurred while preparing validations: " +:+ msg +:+ nl.

Section command.

Variable w : World.
Variable Registry : defaultRegistry.
Variable flags : Flags.

Definition fail {A} (code : Z) (msg : string) : Proc A :=
  emit (EvPrintf (fatal_text msg));;
  os_Exit code.

Definition parseAddonDir (dir : string) : Proc (string + error) :=
  if negb (path_IsAbs dir) then
    emit (EvAbs dir);; mret (filepath_Abs w dir)
  else mret (inl dir).

Definition verifyAddonDir (addonDir : string) : Proc (option error) :=
  emit (EvStat addonDir);;
  match os_Stat w addonDir with
  | inr err => mret (Some ("error while reading directory: " +:+ err))
  | inl isDir =>
      if negb isDir then
        mret (Some ("'" +:+ addonDir +:+ "' is not a directory"))
      else mret None
  end.

Definition verifyArgsAndFlags (addonDir : string) : Proc (option error) :=
  err ← verifyAddonDir addonDir;
  match err with
  | Some e => mret (Some e)
  | None =>
      match verifyEnv (validateEnv flags) with
      | Some e => mret (Some e)
      | None => mret (verifyVersion (validateVersion flags))
      end
  end.

Definition validateMain (arg0 : string) : Proc unit :=
  parsed ← parseAddonDir arg0;
  addonDir ← match parsed with
             | inr err =>
                 fail 1 ("unable to parse the provided directory '"
                           +:+ arg0 +:+ "': " +:+ err)
             | inl d => mret d
             end;
  verr ← verifyArgsAndFlags addonDir;
  match verr with
  | Some err => fail 1 ("unable to process flag or argument: " +:+ err)
  | None => mret tt
  end;;
  emit (EvLoad addonDir (validateEnv flags) (validateVersion flags));;
  meta ← match MetaLoader_Load w addonDir (validateEnv flags)
                 (validateVersion flags) with
         | inr err =>
             fail 1 ("unable to load addon metadata from file '"
                       +:+ addonDir +:+ "': " +:+ err)
         | inl m => mret m
         end;
  indexImage ← match IndexImage meta with
               | None => crash "invalid memory address or nil pointer dereference"
               | Some i => mret i
               end;
  emit (EvExtractBundles indexImage (OperatorName meta));;
  bundles ← match ExtractBundles w indexImage (OperatorName meta) with
            | inr err =>
                fail 1 ("unable to extract and parse bundles from the given index image: "
                          +:+ err)
            | inl b => mret b
            end;
  emit (EvNewFilter (validateDisabled flags) (validateEnabled flags));;
  filter ← match NewFilter Registry (validateDisabled flags)
                   (validateEnabled flags) with
           | inr err => fail 1 ("unable to process filter flags: " +:+ err)
           | inl f => mret f
           end;
  emit EvValidateCLI;;
  result ← lift_go (ValidateCLI Registry (NewMetaBundle meta bundles) filter);
  let '(success, errs) := result in
  if (0 <? length errs)%nat then
    emit (EvPrintValidationErrors errs);; os_Exit 1
  else if negb success then os_Exit 1
  else mret tt.

(** *** How far a run got

    [checked t d]: the directory is resolved to [d] and the argument
    and the flags are verified, with trace [t]; [loaded], [extracted]
    and [filtered] add the metadata, the bundles and the filter. *)

Definition checked (arg0 : string) (t : list Event) (d : string) : Prop :=
  ∃ t0 t1,
    parseAddonDir arg0 = (t0, inl (inl d))
    ∧ verifyArgsAndFlags d = (t1, inl None)
    ∧ t = (t0 ++ t1)%list.

Definition loaded (arg0 : string) (t : list Event)
    (meta : AddonMetadataSpec) : Prop :=
  ∃ t' d,
    checked arg0 t' d
    ∧ MetaLoader_Load w d (validateEnv flags) (validateVersion flags) = inl meta
    ∧ t = (t' ++ [EvLoad d (validateEnv flags) (validateVersion flags)])%list.

Definition extracted (arg0 : string) (t : list Event)
    (meta : AddonMetadataSpec) (bundles : list string) : Prop :=
  ∃ t' indexImage,
    loaded arg0 t' meta
    ∧ IndexImage meta = Some indexImage
    ∧ ExtractBundles w indexImage (OperatorName meta) = inl bundles
    ∧ t = (t' ++ [EvExtractBundles indexImage (OperatorName meta)])%list.

Definition filtered (arg0 : string) (t : list Event)
    (meta : AddonMetadataSpec) (bundles : list string)
    (filter : validatorsFilter) : Prop :=
  ∃ t',
    extracted arg0 t' meta bundles
    ∧ NewFilter Registry (validateDisabled flags) (validateEnabled flags)
      = inl filter
    ∧ t = (t' ++ [EvNewFilter (validateDisabled flags) (validateEnabled flags)])%list.

(** The ways the command ends: the trace and the result of each. *)
Inductive ends (arg0 : string) : Proc unit → Prop :=
| ends_parse t0 err :
    parseAddonDir arg0 = (t0, inl (inr err)) →
    ends arg0
      ((t0 ++ [EvPrintf (fatal_text ("unable to parse the provided directory '"
                                       +:+ arg0 +:+ "': " +:+ err))])%list,
       inr (Exited 1))
| ends_flags t0 d t1 err :
    parseAddonDir arg0 = (t0, inl (inl d)) →
    verifyArgsAndFlags d = (t1, inl (Some err)) →
    ends arg0
      ((t0 ++ t1
           ++ [EvPrintf (fatal_text ("unable to process flag or argument: "
                                       +:+ err))])%list,
       inr (Exited 1))
| ends_load t d err :
    checked arg0 t d →
    MetaLoader_Load w d (validateEnv flags) (validateVersion flags) = inr err →
    ends arg0
      ((t ++ [EvLoad d (validateEnv flags) (validateVersion flags);
              EvPrintf (fatal_text ("unable to load addon metadata from file '"
                                      +:+ d +:+ "': " +:+ err))])%list,
       inr (Exited 1))
| ends_nil_index t meta :
    loaded arg0 t meta →
    IndexImage meta = None →
    ends arg0
      (t, inr (Crashed "invalid memory address or nil pointer dereference"))
| ends_extract t meta indexImage err :
    loaded arg0 t meta →
    IndexImage meta = Some indexImage →
    ExtractBundles w indexImage (OperatorName meta) = inr err →
    ends arg0
      ((t ++ [EvExtractBundles indexImage (OperatorName meta);
              EvPrintf
                (fatal_text
                   ("unable to extract and parse bundles from the given index image: "
                      +:+ err))])%list,
       inr (Exited 1))
| ends_filter t meta bundles err :
    extracted arg0 t meta bundles →
    NewFilter Registry (validateDisabled flags) (validateEnabled flags) = inr err →
    ends arg0
      ((t ++ [EvNewFilter (validateDisabled flags) (validateEnabled flags);
              EvPrintf (fatal_text ("unable to process filter flags: " +:+ err))])%list,
       inr (Exited 1))
| ends_rule_panic t meta bundles filter msg :
    filtered arg0 t meta bundles filter →
    ValidateCLI Registry (NewMetaBundle meta bundles) filter = Panicked msg →
    ends arg0 ((t ++ [EvValidateCLI])%list, inr (Crashed msg))
| ends_hard_errors t meta bundles filter success errs :
    filtered arg0 t meta bundles filter →
    ValidateCLI Registry (NewMetaBundle meta bundles) filter
      = Return (success, errs) →
    errs ≠ [] →
    ends arg0
      ((t ++ [EvValidateCLI; EvPrintValidationErrors errs])%list,
       inr (Exited 1))
| ends_failures t meta bundles filter :
    filtered arg0 t meta bundles filter →
    ValidateCLI Registry (NewMetaBundle meta bundles) filter
      = Return (false, []) →
    ends arg0 ((t ++ [EvValidateCLI])%list, inr (Exited 1))
| ends_success t meta bundles filter :
    filtered arg0 t meta bundles filter →
    ValidateCLI Registry (NewMetaBundle meta bundles) filter
      = Return (true, []) →
    ends arg0 ((t ++ [EvValidateCLI])%list, inl tt).

End command.

(** The process from its start: the [init] functions register the rules
    [rules], then [main] runs the command. A panic in [init] ends the
    process before [main]. *)
Definition mtcli (w : World) (rules : list Validator) (flags : Flags)
    (arg0 : string) : Proc unit :=
  Registry ← lift_go (register_all NewValidatorsRegistry rules);
  validateMain w Registry flags arg0.

End cmd.

(** ** The version format in the words of the command *)

Module wording.

Fixpoint all_digits (s : string) : bool :=
  match s with
  | EmptyString => true
  | String c s' => semver.is_digit c && all_digits s'
  end.

(** A numeral: digits, at least one, and no leading zero but in ["0"]. *)
Definition numeral (s : string) : Prop :=
  s ≠ "" ∧ all_digits s = true ∧ ∀ s', s = String "0" s' → s' = "".

(** [MAJOR.MINOR.PATCH], as the comment and the message of
    [verifyVersion] have it: three numerals with a dot between them. *)
Definition MajorMinorPatch (s : string) : Prop :=
  ∃ major minor patch,
    numeral major ∧ numeral minor ∧ numeral patch
    ∧ s = major +:+ "." +:+ minor +:+ "." +:+ patch.

Fixpoint count_dots (s : string) : nat :=
  match s with
  | EmptyString => 0
  | String c s' => (if Ascii.eqb c "." then 1 else 0) + count_dots s'
  end.

End wording.

(** ** Sample rules, registries and worlds *)

Module samples.
Import validators validate cmd.

Definition rule (code : string) (result : RunnerResult) : Validator :=
  {| Code := code; Name := code; Description := code;
     Runner := Some (λ _, result) |}.

Definition AM01 : Validator := rule "AM01" (true, "", None).
Definition AM02 : Validator := rule "AM02" (false, "x", None).
Definition AM03 : Validator := rule "AM03" (false, "", Some "e").

(** A second rule under the code of [AM01]. *)
Definition AM01' : Validator := rule "AM01" (false, "shadow", None).

Definition registry_of (rules : list Validator) : defaultRegistry :=
  match register_all NewValidatorsRegistry rules with
  | Return r => r
  | Panicked _ => NewValidatorsRegistry
  end.

Definition three_rules : defaultRegistry := registry_of [AM03; AM01; AM02].

Definition subject : MetaBundle :=
  {| AddonMeta := {| ID := "reference-addon"; Icon := "";
                     OperatorName := "reference-addon";
                     IndexImage := Some "quay.io/osd-addons/reference-addon-index" |};
     Bundles := ["reference-addon.v0.1.0"] |}.

(** A world in which every collaborator answers. *)
Definition world_ok : World :=
  {| filepath_Abs := λ dir, inl ("/work/" +:+ dir);
     os_Stat := λ _, inl true;
     MetaLoader_Load := λ _ _ _, inl (AddonMeta subject);
     ExtractBundles := λ _ _, inl (Bundles subject) |}.

(** The same world with a plain file where the addon directory should
    be. *)
Definition world_file : World :=
  {| filepath_Abs := filepath_Abs world_ok;
     os_Stat := λ _, inl false;
     MetaLoader_Load := MetaLoader_Load world_ok;
     ExtractBundles := ExtractBundles world_ok |}.

Definition no_filter : validatorsFilter := {| enabled := ∅; disabled := ∅ |}.

Definition flags_both : Flags :=
  {| validateEnv := "stage"; validateVersion := "";
     validateDisabled := "AM01"; validateEnabled := "AM02" |}.

Definition flags_unknown : Flags :=
  {| validateEnv := "stage"; validateVersion := "";
     validateDisabled := ""; validateEnabled := "AM99" |}.

Definition flags_env (env : string) : Flags :=
  {| validateEnv := env; validateVersion := "";
     validateDisabled := ""; validateEnabled := "" |}.

Definition flags_version (version : string) : Flags :=
  {| validateEnv := "stage"; validateVersion := version;
     validateDisabled := ""; validateEnabled := "" |}.

End samples.

(** ** Order of the events, characters of a version *)

Module observed.
Import cmd.

(** The place of an event in a run: the calls in the order of
    [validateMain], any report last. *)
Definition event_rank (e : Event) : nat :=
  match e with
  | EvAbs _ => 0
  | EvStat _ => 1
  | EvLoad _ _ _ => 2
  | EvExtractBundles _ _ => 3
  | EvNewFilter _ _ => 4
  | EvValidateCLI => 5
  | EvPrintf _ | EvPrintValidationErrors _ => 6
  end.


(** Letters, digits, hyphen, dot and plus. *)
Definition version_char (c : ascii) : bool :=
  (semver.isIdentChar c || Ascii.eqb c "." || Ascii.eqb c "+")%bool.

Fixpoint version_chars (s : string) : bool :=
  match s with
  | EmptyString => true
  | String c s' => version_char c && version_chars s'
  end.


End observed.

(** * Properties *)

Import validators validate cmd.

(** ** The registry *)

Section registry_facts.

Implicit Types (r : defaultRegistry) (v : Validator) (k c : string).

Lemma returns_Return {A} (a : A) : returns (Return a).
Proof. by exists a. Qed.

Lemma panics_Panicked {A} msg : panics (@Panicked A msg).
Proof. by exists msg. Qed.

Lemma returns_not_panics {A} (m : go A) : returns m ↔ ¬ panics m.
Proof.
  destruct m as [a|msg]; split.
  - intros _ [? ?]. discriminate.
  - intros _. apply returns_Return.
  - intros [? ?]. discriminate.
  - intros H. destruct H. apply panics_Panicked.
Qed.

Lemma Add_fresh r v :
  Data r !! Code v = None →
  Add r v = Return {| Data := <[Code v := v]> (Data r) |}.
Proof. intros H. unfold Add. by rewrite H. Qed.

Lemma Add_taken r v :
  is_Some (Data r !! Code v) →
  Add r v = Panicked ("Validator code " +:+ Code v +:+ " already exist.").
Proof. intros [x H]. unfold Add. by rewrite H. Qed.

Lemma Add_panics_iff r v : panics (Add r v) ↔ is_Some (Data r !! Code v).
Proof.
  split.
  - intros [msg H]. unfold Add in H.
    destruct (Data r !! Code v) eqn:E; [by eexists | discriminate].
  - intros H. rewrite (Add_taken _ _ H). apply panics_Panicked.
Qed.

Lemma Add_returns_iff r v : returns (Add r v) ↔ Data r !! Code v = None.
Proof.
  rewrite returns_not_panics, Add_panics_iff.
  rewrite <- not_eq_None_Some. destruct (Data r !! Code v); naive_solver.
Qed.

Lemma Get_found r k v : Get r k = (v, true) ↔ Data r !! k = Some v.
Proof.
  unfold Get. destruct (Data r !! k) as [x|]; split; intros H;
    try discriminate; congruence.
Qed.

Lemma Get_missing r k : (Get r k).2 = false ↔ Data r !! k = None.
Proof. unfold Get. destruct (Data r !! k); simpl; split; congruence. Qed.

(** A call never drops or replaces an entry. *)
Lemma registry_after_keeps r (call : RegistryCall) k v :
  Data r !! k = Some v → Data (registry_after r call) !! k = Some v.
Proof.
  intros H. destruct call as [x| | |]; simpl; try done.
  unfold Add. destruct (Data r !! Code x) eqn:E; simpl; [done|].
  rewrite lookup_insert_ne; [done|]. intros Heq. congruence.
Qed.

Lemma registry_after_all_keeps (calls : list RegistryCall) r k v :
  Data r !! k = Some v → Data (foldl registry_after r calls) !! k = Some v.
Proof.
  revert r. induction calls as [|call calls IH]; intros r H; simpl; [done|].
  apply IH. by apply registry_after_keeps.
Qed.

(** Registering a list of rules goes through exactly when the codes are
    pairwise different and none of them is taken. *)
Lemma register_all_returns_iff (vs : list Validator) r :
  returns (register_all r vs)
  ↔ NoDup (Code <$> vs) ∧ Forall (λ x, Data r !! Code x = None) vs.
Proof.
  revert r. induction vs as [|v vs IH]; intros r; simpl.
  - split; [intros _; split; constructor | intros _; apply returns_Return].
  - rewrite NoDup_cons, Forall_cons. unfold Add.
    destruct (Data r !! Code v) eqn:E; simpl.
    + split; [intros [? ?]; discriminate | intros (_ & ? & _); discriminate].
    + rewrite IH. simpl. split.
      * intros [Hnd Hall]. split_and!; [|done|done|].
        -- intros Hin. apply list_elem_of_fmap in Hin as (x & Hx & Hin).
           rewrite Forall_forall in Hall. specialize (Hall x Hin).
           simpl in Hall. rewrite <- Hx, lookup_insert_eq in Hall. discriminate.
        -- eapply Forall_impl; [exact Hall|]. intros x Hx. simpl in Hx.
           destruct (decide (Code v = Code x)) as [Heq|Hne].
           ++ rewrite Heq, lookup_insert_eq in Hx. discriminate.
           ++ by rewrite lookup_insert_ne in Hx.
      * intros ((Hnin & Hnd) & _ & Hall). split; [done|].
        rewrite Forall_forall in Hall |- *. intros x Hin.
        rewrite lookup_insert_ne; [by apply Hall|].
        intros Heq. apply Hnin. rewrite Heq. by apply list_elem_of_fmap_2.
Qed.

Lemma register_all_panics_iff (vs : list Validator) r :
  panics (register_all r vs)
  ↔ ¬ (NoDup (Code <$> vs) ∧ Forall (λ x, Data r !! Code x = None) vs).
Proof.
  rewrite <- register_all_returns_iff, returns_not_panics.
  destruct (register_all r vs) as [a|msg]; split; intros H.
  - destruct H as [? ?]; discriminate.
  - destruct H. intros [? ?]; discriminate.
  - intros Hn. apply Hn. apply panics_Panicked.
  - apply panics_Panicked.
Qed.

End registry_facts.

Lemma mtcli_init_panic (w : World) (rules : list Validator) (flags : Flags)
    (arg0 msg : string) :
  register_all NewValidatorsRegistry rules = Panicked msg →
  mtcli w rules flags arg0 = ([], inr (Crashed msg)).
Proof. intros H. unfold mtcli. rewrite H. reflexivity. Qed.

Lemma mtcli_init_return (w : World) (rules : list Validator) (flags : Flags)
    (arg0 : string) (reg : defaultRegistry) :
  register_all NewValidatorsRegistry rules = Return reg →
  mtcli w rules flags arg0 = validateMain w reg flags arg0.
Proof.
  intros H. unfold mtcli. rewrite H. simpl.
  unfold mbind, Proc_bind, proc_bind. simpl.
  by destruct (validateMain w reg flags arg0) as [t r].
Qed.

Lemma duplicate_codes_panic (rules : list Validator) :
  ¬ NoDup (Code <$> rules) →
  panics (register_all NewValidatorsRegistry rules).
Proof. intros H. apply register_all_panics_iff. tauto. Qed.

(** C5. [Add] panics exactly when the rule's code is already a key of the
    registry, and otherwise returns the registry with the rule inserted
    under its code. Two rules with one code cannot both be registered, in
    either order, and a list of rules with a repeated code ends the
    process in [init], before [main], whatever the order of the list. *)
Theorem Add_duplicate_code_is_fatal (r : defaultRegistry) (v : Validator) :
  (is_Some (Data r !! Code v) ↔ panics (Add r v))
  ∧ (Data r !! Code v = None
     ↔ Add r v = Return {| Data := <[Code v := v]> (Data r) |})
  ∧ (∀ v', Code v' = Code v →
       panics (register_all r [v; v']) ∧ panics (register_all r [v'; v]))
  ∧ (∀ rules w flags arg0,
       ¬ NoDup (Code <$> rules) →
       ∃ msg, mtcli w rules flags arg0 = ([], inr (Crashed msg))
              ∧ exit_code (mtcli w rules flags arg0) = 2).
Proof.
  split_and!.
  - symmetry. apply Add_panics_iff.
  - split; [apply Add_fresh|].
    intros H. apply Add_returns_iff. rewrite H. apply returns_Return.
  - intros v' Hc. split; apply register_all_panics_iff; intros [Hnd _];
      simpl in Hnd; rewrite Hc in Hnd; apply NoDup_cons in Hnd as [Hnin _];
      apply Hnin; left.
  - intros rules w flags arg0 Hdup.
    destruct (duplicate_codes_panic rules Hdup) as [msg Hmsg].
    exists msg. by rewrite (mtcli_init_panic _ _ _ _ _ Hmsg).
Qed.

(** C10. After [Add(v)] for a rule whose code is not registered:
    [Get(v.Code)] is [(v, true)], [Len] is one more, and [Get] of every
    code registered before gives the rule it gave before. No sequence of
    registry calls ([Add], [Len], [All], [Get]) changes or removes an
    entry. *)
Theorem Add_fresh_frame (r : defaultRegistry) (v : Validator) :
  (Get r (Code v)).2 = false →
  ∃ r', Add r v = Return r'
    ∧ Get r' (Code v) = (v, true)
    ∧ Len r' = Len r + 1
    ∧ (∀ c x, Get r c = (x, true) → Get r' c = (x, true))
    ∧ (∀ calls c x, Get r c = (x, true) →
         Get (foldl registry_after r calls) c = (x, true)).
Proof.
  intros Hfresh. apply Get_missing in Hfresh.
  exists {| Data := <[Code v := v]> (Data r) |}. split_and!.
  - by apply Add_fresh.
  - apply Get_found. simpl. apply lookup_insert_eq.
  - unfold Len. simpl. rewrite map_size_insert_None by done. lia.
  - intros c x Hc. apply Get_found in Hc. apply Get_found. simpl.
    rewrite lookup_insert_ne; [done|]. intros Heq. congruence.
  - intros calls c x Hc. apply Get_found in Hc. apply Get_found.
    by apply registry_after_all_keeps.
Qed.

Lemma Add_fresh_frame_witness :
  (Get samples.three_rules (Code (samples.rule "AM04" (true, "", None)))).2 = false
  ∧ ∃ r', Add samples.three_rules (samples.rule "AM04" (true, "", None)) = Return r'
    ∧ Get r' "AM04" = (samples.rule "AM04" (true, "", None), true)
    ∧ Len r' = Len samples.three_rules + 1
    ∧ (∀ c x, Get samples.three_rules c = (x, true) → Get r' c = (x, true))
    ∧ (∀ calls c x, Get samples.three_rules c = (x, true) →
         Get (foldl registry_after samples.three_rules calls) c = (x, true)).
Proof.
  split; [vm_compute; reflexivity|].
  apply (Add_fresh_frame samples.three_rules (samples.rule "AM04" (true, "", None))).
  vm_compute; reflexivity.
Defined.

(** ** Rule AM0004 *)

(** C9. [ValidateIconBase64] returns a [nil] error on every subject,
    whatever the base64 and PNG decoders answer: a missing icon, an icon
    that is no base64 and base64 that is no PNG each give [passed = false]
    with their message. Run by the orchestrator, the rule leaves
    [hardErrors] as it was. *)
Theorem ValidateIconBase64_error_is_nil
    (base64_DecodeString : string → list Byte.byte + error)
    (png_Decode : list Byte.byte → option error) (mb : MetaBundle) :
  let run := am0004.ValidateIconBase64 base64_DecodeString png_Decode in
  let id := ID (AddonMeta mb) in
  let icon := Icon (AddonMeta mb) in
  (run mb).2 = None
  ∧ (icon = "" →
     (run mb).1 = (false, "`icon` not found under the addon metadata of " +:+ id))
  ∧ (∀ err, icon ≠ "" → base64_DecodeString icon = inr err →
     (run mb).1 =
       (false,
        "`icon` found to be improperly base64 populated under the addon metadata of "
          +:+ id))
  ∧ (∀ b64decoded err, icon ≠ "" → base64_DecodeString icon = inl b64decoded →
     png_Decode b64decoded = Some err →
     (run mb).1 =
       (false,
        "`icon`'s base64 value found to correspond to a non-png data under the addon metadata of "
          +:+ id))
  ∧ (∀ t, ∃ t',
       run_rule mb t (am0004.AM0004 base64_DecodeString png_Decode) = Return t'
       ∧ hardErrors t' = hardErrors t).
Proof.
  intros run id icon. subst run id icon.
  unfold run_rule, am0004.AM0004, am0004.ValidateIconBase64. simpl.
  split_and!.
  - destruct (decide _); [done|]. by destruct (base64_DecodeString _).
  - intros ->. by destruct (decide _).
  - intros err Hne ->. by destruct (decide _).
  - intros b err Hne -> ->. by destruct (decide _).
  - intros t. destruct (decide _); [by eexists|].
    destruct (base64_DecodeString _); [|by eexists].
    destruct (bool_decide _); by eexists.
Qed.

(** ** Environment and version *)

Lemma verifyEnv_nil_iff (env : string) :
  verifyEnv env = None
  ↔ env = "integration" ∨ env = "stage" ∨ env = "production".
Proof.
  unfold verifyEnv. repeat case_bool_decide; simpl; split; intros Hres;
    try done; try discriminate; tauto.
Qed.

Lemma verifyVersion_with_nil_iff (IsValid : string → bool) (version : string) :
  verifyVersion_with IsValid version = None
  ↔ version = "" ∨ version = "latest" ∨ IsValid ("v" +:+ version) = true.
Proof.
  unfold verifyVersion_with. destruct (decide (version = "")) as [->|Hne].
  - split; [by left | done].
  - case_bool_decide as Hl; simpl.
    + destruct (IsValid _); simpl; split; intros H'; try done;
        try discriminate; [tauto|].
      destruct H' as [?|[?|?]]; done.
    + split; [intros _|done]. right; left. by destruct (decide (version = "latest")).
Qed.

Lemma verifyVersion_error_names_version (version err : string) :
  verifyVersion version = Some err →
  err = "'" +:+ version +:+
        "' is not a valid version; must be one of 'latest' or match 'MAJOR.MINOR.PATCH'".
Proof.
  unfold verifyVersion, verifyVersion_with.
  destruct (decide _); [done|]. destruct (_ && _)%bool; congruence.
Qed.

Section semver_facts.
Import wording.

Lemma append_nil_l (s : string) : "" +:+ s = s.
Proof. reflexivity. Qed.

Lemma append_cons (c : ascii) (a s : string) :
  String c a +:+ s = String c (a +:+ s).
Proof. reflexivity. Qed.

Lemma append_nil_r (s : string) : s +:+ "" = s.
Proof. induction s as [|c s IH]; [done|]. by rewrite append_cons, IH. Qed.

Lemma span_digits_numeral (a rest : string) :
  all_digits a = true →
  (∀ c rest', rest = String c rest' → semver.is_digit c = false) →
  semver.span_digits (a +:+ rest) = (a, rest).
Proof.
  intros Ha Hrest. induction a as [|c a IH].
  - rewrite append_nil_l. destruct rest as [|c rest']; [done|].
    cbn [semver.span_digits]. by rewrite (Hrest c rest' eq_refl).
  - cbn [all_digits] in Ha. apply andb_prop in Ha as [Hc Ha].
    rewrite append_cons. cbn [semver.span_digits]. by rewrite Hc, (IH Ha).
Qed.

Lemma parseInt_numeral (a rest : string) :
  numeral a →
  (∀ c rest', rest = String c rest' → semver.is_digit c = false) →
  semver.parseInt (a +:+ rest) = Some (a, rest).
Proof.
  intros (Hne & Hd & Hz) Hrest. unfold semver.parseInt.
  destruct a as [|c a]; [done|].
  rewrite (span_digits_numeral _ _ Hd Hrest). rewrite append_cons.
  cbn [all_digits] in Hd. apply andb_prop in Hd as [Hc Hd]. rewrite Hc.
  cbn [negb]. destruct (Ascii.eqb c "0") eqn:E; [|done].
  apply Ascii.eqb_eq in E. subst c. by rewrite (Hz a eq_refl).
Qed.

Lemma MajorMinorPatch_valid (s : string) :
  MajorMinorPatch s → semver.IsValid ("v" +:+ s) = true.
Proof.
  intros (a & b & c & Ha & Hb & Hc & ->).
  unfold semver.IsValid, semver.parse. rewrite append_cons, append_nil_l.
  rewrite (parseInt_numeral a _ Ha) by (intros ? ? [= <- _]; done).
  rewrite append_cons, append_nil_l.
  rewrite (parseInt_numeral b _ Hb) by (intros ? ? [= <- _]; done).
  rewrite append_cons, append_nil_l.
  rewrite <- (append_nil_r c).
  rewrite (parseInt_numeral c "" Hc) by (intros ? ? [=]).
  reflexivity.
Qed.

Lemma count_dots_app (a b : string) :
  count_dots (a +:+ b) = (count_dots a + count_dots b)%nat.
Proof. induction a as [|c a IH]; simpl; [done|]. rewrite IH. lia. Qed.

Lemma MajorMinorPatch_two_dots (s : string) :
  MajorMinorPatch s → (2 ≤ count_dots s)%nat.
Proof.
  intros (a & b & c & _ & _ & _ & ->).
  rewrite !count_dots_app. simpl. lia.
Qed.

Lemma MajorMinorPatch_all_plain (s : string) :
  MajorMinorPatch s →
  ∀ ch, ch ∈ list_ascii_of_string s → semver.is_digit ch = true ∨ ch = "."%char.
Proof.
  assert (Hd : ∀ a, all_digits a = true →
            ∀ ch, ch ∈ list_ascii_of_string a → semver.is_digit ch = true).
  { induction a as [|x a IH]; simpl; intros H ch Hin.
    - by apply elem_of_nil in Hin.
    - apply andb_prop in H as [Hx H].
      apply elem_of_cons in Hin as [->|Hin]; [done|by apply IH]. }
  assert (Happ : ∀ a b, list_ascii_of_string (a +:+ b)
                 = (list_ascii_of_string a ++ list_ascii_of_string b)%list).
  { induction a as [|x a IH]; simpl; intros b; [done|]. by rewrite IH. }
  intros (a & b & c & (_ & Ha & _) & (_ & Hb & _) & (_ & Hc & _) & ->) ch.
  rewrite !Happ. simpl. intros H.
  repeat (apply elem_of_app in H as [H|H] || apply elem_of_cons in H as [H|H]);
    eauto.
Qed.

End semver_facts.

(** C4. What [verifyVersion] accepts: [""], ["latest"] and ["2.1.0"] are
    accepted, ["2.1.x"] is rejected with a message that names it, and
    every [MAJOR.MINOR.PATCH] is accepted; but so are ["2.1"], ["2"] and
    ["1.0.0-rc.1"], none of which is a [MAJOR.MINOR.PATCH], against the
    comment and the message of the function. *)
Theorem verifyVersion_accepts_short_versions :
  verifyVersion "" = None
  ∧ verifyVersion "latest" = None
  ∧ verifyVersion "2.1.0" = None
  ∧ verifyVersion "2.1.x"
    = Some "'2.1.x' is not a valid version; must be one of 'latest' or match 'MAJOR.MINOR.PATCH'"
  ∧ (∀ version, wording.MajorMinorPatch version → verifyVersion version = None)
  ∧ (∀ version err, verifyVersion version = Some err →
       err = "'" +:+ version +:+
             "' is not a valid version; must be one of 'latest' or match 'MAJOR.MINOR.PATCH'")
  ∧ (verifyVersion "2.1" = None ∧ ¬ wording.MajorMinorPatch "2.1")
  ∧ (verifyVersion "2" = None ∧ ¬ wording.MajorMinorPatch "2")
  ∧ (verifyVersion "1.0.0-rc.1" = None ∧ ¬ wording.MajorMinorPatch "1.0.0-rc.1").
Proof.
  split_and!; try (vm_compute; reflexivity).
  - intros version H. apply verifyVersion_with_nil_iff.
    right; right. by apply MajorMinorPatch_valid.
  - apply verifyVersion_error_names_version.
  - intros H. apply MajorMinorPatch_two_dots in H. vm_compute in H. lia.
  - intros H. apply MajorMinorPatch_two_dots in H. vm_compute in H. lia.
  - intros H.
    destruct (MajorMinorPatch_all_plain _ H "-"%char) as [Hd|Hd];
      [|vm_compute in Hd; discriminate|discriminate].
    cbn. do 5 apply list_elem_of_further. apply list_elem_of_here.
Qed.

(** ** The run of the command *)

Ltac proc_step :=
  cbn [mbind mret Proc_bind Proc_ret proc_bind proc_ret app fst snd].

Ltac open_stages :=
  repeat match goal with
  | H : filtered _ _ _ _ _ _ _ _ |- _ => destruct H as (? & H & ? & ->)
  | H : extracted _ _ _ _ _ _ |- _ => destruct H as (? & ? & H & ? & ? & ->)
  | H : loaded _ _ _ _ _ |- _ => destruct H as (? & ? & H & ? & ->)
  | H : checked _ _ _ _ _ |- _ => destruct H as (? & ? & ? & ? & ->)
  end.

Section run_facts.
Variables (w : World) (reg : defaultRegistry) (flags : Flags) (arg0 : string).

Lemma parseAddonDir_returns dir :
  ∃ t r, parseAddonDir w dir = (t, inl r).
Proof. unfold parseAddonDir. destruct (negb _); by eexists _, _. Qed.

Lemma parseAddonDir_trace dir t r :
  parseAddonDir w dir = (t, r) → t = [] ∨ t = [EvAbs dir].
Proof.
  unfold parseAddonDir. destruct (negb _); intros [= <- _]; [by right|by left].
Qed.

Lemma verifyArgsAndFlags_returns d :
  ∃ r, verifyArgsAndFlags w flags d = ([EvStat d], inl r).
Proof.
  unfold verifyArgsAndFlags, verifyAddonDir.
  destruct (os_Stat w d) as [[|]|err]; cbn;
    [destruct (verifyEnv _)| |]; by eexists.
Qed.


Lemma ends_eq p q : ends w reg flags arg0 p → p = q → ends w reg flags arg0 q.
Proof. by intros H <-. Qed.

Ltac ends_with c :=
  eapply ends_eq; [eapply c; eauto|];
  f_equal; rewrite <- ?app_assoc; reflexivity.

(** Every run of [validateMain] ends in one of the ways of [ends]. *)
Lemma validateMain_ends : ends w reg flags arg0 (validateMain w reg flags arg0).
Proof.
  unfold validateMain, cmd.fail, emit, os_Exit, crash, lift_go.
  destruct (parseAddonDir_returns arg0) as (t0 & [d|err] & Hp);
    rewrite Hp; proc_step; [|ends_with ends_parse].
  destruct (verifyArgsAndFlags_returns d) as ([err|] & Hv);
    rewrite Hv; proc_step; [ends_with ends_flags|].
  assert (Hc : checked w flags arg0 (t0 ++ [EvStat d]) d) by (by eexists _, _).
  destruct (MetaLoader_Load w d _ _) as [meta|err] eqn:Hl; proc_step;
    [|ends_with ends_load].
  assert (Hm : loaded w flags arg0
                 ((t0 ++ [EvStat d])
                    ++ [EvLoad d (validateEnv flags) (validateVersion flags)]) meta)
    by (by eexists _, _).
  destruct (IndexImage meta) as [indexImage|] eqn:Hi; proc_step;
    [|ends_with ends_nil_index].
  destruct (ExtractBundles w indexImage _) as [bundles|err] eqn:He; proc_step;
    [|ends_with ends_extract].
  assert (Hx : extracted w flags arg0
                 (((t0 ++ [EvStat d])
                     ++ [EvLoad d (validateEnv flags) (validateVersion flags)])
                    ++ [EvExtractBundles indexImage (OperatorName meta)])
                 meta bundles)
    by (by eexists _, _).
  destruct (NewFilter reg _ _) as [filter|err] eqn:Hf; proc_step;
    [|ends_with ends_filter].
  assert (Hfl : filtered w reg flags arg0
                  ((((t0 ++ [EvStat d])
                       ++ [EvLoad d (validateEnv flags) (validateVersion flags)])
                      ++ [EvExtractBundles indexImage (OperatorName meta)])
                     ++ [EvNewFilter (validateDisabled flags) (validateEnabled flags)])
                  meta bundles filter)
    by (by eexists _).
  destruct (ValidateCLI reg _ filter) as [[success errs]|msg] eqn:Hr; proc_step;
    [|ends_with ends_rule_panic].
  destruct errs as [|e errs]; cbn [length Nat.ltb Nat.leb]; proc_step.
  - destruct success; cbn [negb]; proc_step;
      [ends_with ends_success|ends_with ends_failures].
  - ends_with ends_hard_errors.
Qed.

(** ... and in no other way. *)
Lemma ends_validateMain p :
  ends w reg flags arg0 p → validateMain w reg flags arg0 = p.
Proof.
  intros H. unfold validateMain, cmd.fail, emit, os_Exit, crash, lift_go.
  destruct H; open_stages;
    repeat match goal with
    | H : ?x = _ |- context [?x] => rewrite H; clear H; proc_step
    end;
    try (f_equal; rewrite <- ?app_assoc; reflexivity).
  destruct errs as [|e errs]; [done|].
  cbn [length Nat.ltb Nat.leb]. proc_step.
  f_equal. rewrite <- ?app_assoc. reflexivity.
Qed.

Lemma ends_iff p :
  ends w reg flags arg0 p ↔ validateMain w reg flags arg0 = p.
Proof.
  split; [apply ends_validateMain|]. intros <-. apply validateMain_ends.
Qed.

Lemma verifyArgsAndFlags_nil d t1 :
  verifyArgsAndFlags w flags d = (t1, inl None) →
  t1 = [EvStat d] ∧ os_Stat w d = inl true
  ∧ verifyEnv (validateEnv flags) = None
  ∧ verifyVersion (validateVersion flags) = None.
Proof.
  unfold verifyArgsAndFlags, verifyAddonDir.
  destruct (os_Stat w d) as [[|]|err]; cbn; [|intros [=]..].
  destruct (verifyEnv _); cbn; intros [= <- ?]; done.
Qed.

Lemma verifyArgsAndFlags_error d t1 err :
  verifyArgsAndFlags w flags d = (t1, inl (Some err)) →
  t1 = [EvStat d]
  ∧ ((∃ e, os_Stat w d = inr e)
     ∨ os_Stat w d = inl false
     ∨ verifyEnv (validateEnv flags) = Some err
     ∨ verifyVersion (validateVersion flags) = Some err).
Proof.
  unfold verifyArgsAndFlags, verifyAddonDir.
  destruct (os_Stat w d) as [[|]|e]; cbn.
  - destruct (verifyEnv _) eqn:E; cbn; intros [= <- ?]; subst; eauto 6.
  - intros [= <- ?]. eauto.
  - intros [= <- ?]. eauto.
Qed.

(** A flag the command rejects: the run prints and exits before the
    metadata is loaded. *)
Lemma verifyArgsAndFlags_rejects d :
  os_Stat w d ≠ inl true
  ∨ verifyEnv (validateEnv flags) ≠ None
  ∨ verifyVersion (validateVersion flags) ≠ None →
  ∃ err, verifyArgsAndFlags w flags d = ([EvStat d], inl (Some err)).
Proof.
  intros H. destruct (verifyArgsAndFlags_returns d) as ([err|] & Hv); [eauto|].
  apply verifyArgsAndFlags_nil in Hv as (_ & ? & ? & ?).
  destruct H as [H|[H|H]]; congruence.
Qed.

End run_facts.

(** A run that [verifyArgsAndFlags] stops: one report, exit status 1,
    and nothing but the resolution of the directory and its [os.Stat]
    before the report. *)
Lemma validateMain_rejected (w : World) (reg : defaultRegistry) (flags : Flags)
    (arg0 d : string) (t0 : list Event) :
  parseAddonDir w arg0 = (t0, inl (inl d)) →
  os_Stat w d ≠ inl true
  ∨ verifyEnv (validateEnv flags) ≠ None
  ∨ verifyVersion (validateVersion flags) ≠ None →
  ∃ err,
    validateMain w reg flags arg0
    = (t0 ++ [EvStat d;
              EvPrintf (fatal_text ("unable to process flag or argument: " +:+ err))],
       inr (Exited 1)).
Proof.
  intros Hp Hbad.
  destruct (verifyArgsAndFlags_rejects w flags d Hbad) as [err Hv].
  exists err. apply ends_validateMain.
  apply (ends_flags w reg flags arg0 t0 d [EvStat d] err Hp Hv).
Qed.

Lemma validateMain_unparsed (w : World) (reg : defaultRegistry) (flags : Flags)
    (arg0 err : string) (t0 : list Event) :
  parseAddonDir w arg0 = (t0, inl (inr err)) →
  validateMain w reg flags arg0
  = (t0 ++ [EvPrintf (fatal_text ("unable to parse the provided directory '"
                                    +:+ arg0 +:+ "': " +:+ err))],
     inr (Exited 1)).
Proof. intros Hp. apply ends_validateMain. by apply ends_parse. Qed.

(** C8. The [--env] flag defaults to ["stage"]; [verifyEnv] returns [nil]
    exactly on ["integration"], ["stage"] and ["production"]; with any
    other value the command exits with status 1 and its trace has no
    call that reads the registry (the filter's construction, the run of
    the rules), nor the metadata load or the bundle extraction. *)
Theorem verifyEnv_three_literals :
  validateEnv defaultFlags = "stage"
  ∧ (∀ env, verifyEnv env = None
            ↔ env = "integration" ∨ env = "stage" ∨ env = "production")
  ∧ (∀ w reg flags arg0,
       verifyEnv (validateEnv flags) ≠ None →
       exit_code (validateMain w reg flags arg0) = 1
       ∧ Forall (λ e, reads_registry e = false ∧ is_load_or_extract e = false)
           (trace (validateMain w reg flags arg0))).
Proof.
  split_and!; [reflexivity|apply verifyEnv_nil_iff|].
  intros w reg flags arg0 Henv.
  destruct (parseAddonDir_returns w arg0) as (t0 & [d|err] & Hp).
  - destruct (validateMain_rejected w reg flags arg0 d t0 Hp) as [err ->];
      [tauto|].
    split; [reflexivity|]. unfold trace; cbn [fst].
    apply parseAddonDir_trace in Hp as [-> | ->]; repeat constructor.
  - rewrite (validateMain_unparsed w reg flags arg0 err t0 Hp).
    split; [reflexivity|]. unfold trace; cbn [fst].
    apply parseAddonDir_trace in Hp as [-> | ->]; repeat constructor.
Qed.

(** ** The orchestrator *)

Section orchestrator_facts.

Variable subject : MetaBundle.

(** What a rule adds to the tally, when it has a runner. *)
Lemma run_rule_cases (t : tally) (rule : Validator) runner :
  Runner rule = Some runner →
  ∃ t', run_rule subject t rule = Return t'
    ∧ match runner subject with
      | (_, _, Some err) =>
          nPassed t' = nPassed t ∧ failures t' = failures t
          ∧ hardErrors t' = hardErrors t ++ [err]
      | (false, message, None) =>
          nPassed t' = nPassed t
          ∧ failures t' = failures t
                            ++ [{| oCode := Code rule; oMessage := message |}]
          ∧ hardErrors t' = hardErrors t
      | (true, _, None) =>
          nPassed t' = S (nPassed t) ∧ failures t' = failures t
          ∧ hardErrors t' = hardErrors t
      end.
Proof.
  intros Hr. unfold run_rule. rewrite Hr.
  destruct (runner subject) as [[[|] message] [err|]]; by eexists.
Qed.

(** The tally only grows. *)
Lemma run_rule_grows (t t' : tally) (rule : Validator) :
  run_rule subject t rule = Return t' →
  (nPassed t ≤ nPassed t')%nat
  ∧ failures t `prefix_of` failures t'
  ∧ hardErrors t `prefix_of` hardErrors t'
  ∧ (nPassed t' + length (failures t') + length (hardErrors t')
     = S (nPassed t + length (failures t) + length (hardErrors t)))%nat.
Proof.
  unfold run_rule. destruct (Runner rule) as [runner|]; [|done].
  destruct (runner subject) as [[[|] message] [err|]]; intros [= <-]; simpl;
    rewrite ?length_app; simpl;
    split_and!; try done; try lia; try (by apply prefix_app_r).
Qed.

Lemma run_rules_grows (rules : list Validator) (t t' : tally) :
  run_rules subject t rules = Return t' →
  (nPassed t ≤ nPassed t')%nat
  ∧ failures t `prefix_of` failures t'
  ∧ hardErrors t `prefix_of` hardErrors t'
  ∧ (nPassed t' + length (failures t') + length (hardErrors t')
     = length rules + (nPassed t + length (failures t) + length (hardErrors t)))%nat.
Proof.
  revert t. induction rules as [|rule rules IH]; intros t; simpl.
  - intros [= <-]. done.
  - destruct (run_rule subject t rule) as [t1|] eqn:E1; simpl; [|done].
    intros H. apply IH in H as (? & ? & ? & ?).
    apply run_rule_grows in E1 as (? & ? & ? & ?).
    split_and!; [lia|by etrans|by etrans|lia].
Qed.

(** No rule stops the loop: when every rule has a runner the loop
    returns, having run every rule. *)
Lemma run_rules_returns (rules : list Validator) (t : tally) :
  Forall (λ rule, is_Some (Runner rule)) rules →
  ∃ t', run_rules subject t rules = Return t'.
Proof.
  revert t. induction rules as [|rule rules IH]; intros t Hall; simpl.
  - by eexists.
  - apply Forall_cons in Hall as [[runner Hr] Hall].
    destruct (run_rule_cases t rule runner Hr) as (t1 & -> & _). simpl.
    by apply IH.
Qed.

(** The outcome of every rule of the list is in the final tally. *)
Lemma run_rules_covers (rules : list Validator) (t t' : tally) rule runner :
  run_rules subject t rules = Return t' →
  rule ∈ rules →
  Runner rule = Some runner →
  match runner subject with
  | (_, _, Some err) => err ∈ hardErrors t'
  | (false, message, None) =>
      {| oCode := Code rule; oMessage := message |} ∈ failures t'
  | (true, _, None) => True
  end.
Proof.
  revert t. induction rules as [|r rules IH]; intros t Hrun Hin Hr.
  - by apply elem_of_nil in Hin.
  - simpl in Hrun.
    destruct (run_rule subject t r) as [t1|] eqn:E1; simpl in Hrun; [|done].
    apply elem_of_cons in Hin as [<-|Hin]; [|by eapply IH].
    destruct (run_rule_cases t rule runner Hr) as (t1' & E1' & Hcase).
    rewrite E1 in E1'. injection E1' as <-.
    apply run_rules_grows in Hrun as (_ & Hf & He & _).
    destruct (runner subject) as [[[|] message] [err|]];
      destruct Hcase as (_ & Hf1 & He1); try done.
    + eapply elem_of_prefix; [|exact He]. rewrite He1. set_solver.
    + eapply elem_of_prefix; [|exact He]. rewrite He1. set_solver.
    + eapply elem_of_prefix; [|exact Hf]. rewrite Hf1. set_solver.
Qed.

End orchestrator_facts.

Lemma elem_of_selected (f : validatorsFilter) (reg : defaultRegistry)
    (rule : Validator) :
  rule ∈ selected f reg
  ↔ (∃ k, Data reg !! k = Some rule) ∧ Includes f rule = true.
Proof.
  unfold selected, All. rewrite merge_sort_Permutation.
  rewrite list_elem_of_filter, list_elem_of_fmap. split.
  - intros (Hinc & [k v] & -> & Hin). apply elem_of_map_to_list in Hin. eauto.
  - intros ((k & Hk) & Hinc). split; [done|].
    exists (k, rule). split; [done|]. by apply elem_of_map_to_list.
Qed.

#[local] Instance code_le_total : Total code_le.
Proof. intros v1 v2. apply String.leb_total. Qed.

(** The rules run by ascending code. *)
Lemma selected_sorted (f : validatorsFilter) (reg : defaultRegistry) :
  Sorted code_le (selected f reg).
Proof. apply Sorted_merge_sort; apply _. Qed.

Lemma Run_verdict (subject : MetaBundle) (f : validatorsFilter)
    (reg : defaultRegistry) success fs errs :
  Run subject f reg = Return (success, fs, errs) →
  success = true ↔ errs = [] ∧ fs = [].
Proof.
  unfold Run. destruct (run_rules _ _ _) as [t|]; simpl; [|done].
  intros [= <- <- <-]. rewrite andb_true_iff, !bool_decide_eq_true. done.
Qed.

Lemma ValidateCLI_Run (subject : MetaBundle) (f : validatorsFilter)
    (reg : defaultRegistry) success errs :
  ValidateCLI reg subject f = Return (success, errs)
  ↔ ∃ fs, Run subject f reg = Return (success, fs, errs).
Proof.
  unfold ValidateCLI. destruct (Run subject f reg) as [[[ok fs] es]|]; simpl.
  - split; [intros [= <- <-]; by exists fs | intros (fs' & [= <- _ <-]); done].
  - split; [done | intros (? & [=])].
Qed.

(** C7. When the rules the filter selects have a runner, the run
    returns: no rule stops it, whatever the rules return. The counter of
    passed rules, [failures] and [hardErrors] add up to the number of
    selected rules, and the outcome of every selected rule is recorded:
    its error in [hardErrors] if it returned one, its code and message in
    [failures] if it did not pass. *)
Theorem Run_reports_every_selected_rule (subject : MetaBundle)
    (f : validatorsFilter) (reg : defaultRegistry) :
  (∀ k rule, Data reg !! k = Some rule → Includes f rule = true →
             is_Some (Runner rule)) →
  ∃ t,
    run_rules subject tally0 (selected f reg) = Return t
    ∧ Run subject f reg
      = Return (bool_decide (hardErrors t = []) && bool_decide (failures t = []),
                failures t, hardErrors t)
    ∧ (nPassed t + length (failures t) + length (hardErrors t)
       = length (selected f reg))%nat
    ∧ ∀ k rule runner,
        Data reg !! k = Some rule → Includes f rule = true →
        Runner rule = Some runner →
        match runner subject with
        | (_, _, Some err) => err ∈ hardErrors t
        | (false, message, None) =>
            {| oCode := Code rule; oMessage := message |} ∈ failures t
        | (true, _, None) => True
        end.
Proof.
  intros Hrunners.
  destruct (run_rules_returns subject (selected f reg) tally0) as [t Ht].
  { apply Forall_forall. intros rule Hin.
    apply elem_of_selected in Hin as ((k & Hk) & Hinc). by eapply Hrunners. }
  exists t. split_and!; [done| |..].
  - unfold Run. rewrite Ht. reflexivity.
  - apply run_rules_grows in Ht as (_ & _ & _ & ->). simpl. lia.
  - intros k rule runner Hk Hinc Hr.
    eapply run_rules_covers; [exact Ht| |exact Hr].
    apply elem_of_selected. eauto.
Qed.

Lemma three_rules_have_runners k rule :
  Data samples.three_rules !! k = Some rule → is_Some (Runner rule).
Proof.
  revert k rule.
  change (map_Forall (λ _ rule, is_Some (Runner rule)) (Data samples.three_rules)).
  apply (bool_decide_unpack _). vm_compute. exact I.
Qed.

Lemma Run_reports_every_selected_rule_witness :
  (∀ k rule, Data samples.three_rules !! k = Some rule →
             Includes samples.no_filter rule = true → is_Some (Runner rule))
  ∧ ∃ t,
      run_rules samples.subject tally0
        (selected samples.no_filter samples.three_rules) = Return t
      ∧ Run samples.subject samples.no_filter samples.three_rules
        = Return (bool_decide (hardErrors t = []) && bool_decide (failures t = []),
                  failures t, hardErrors t)
      ∧ (nPassed t + length (failures t) + length (hardErrors t)
         = length (selected samples.no_filter samples.three_rules))%nat
      ∧ ∀ k rule runner,
          Data samples.three_rules !! k = Some rule →
          Includes samples.no_filter rule = true →
          Runner rule = Some runner →
          match runner samples.subject with
          | (_, _, Some err) => err ∈ hardErrors t
          | (false, message, None) =>
              {| oCode := Code rule; oMessage := message |} ∈ failures t
          | (true, _, None) => True
          end.
Proof.
  split.
  - intros k rule Hk _. exact (three_rules_have_runners k rule Hk).
  - apply (Run_reports_every_selected_rule samples.subject samples.no_filter
             samples.three_rules).
    intros k rule Hk _. exact (three_rules_have_runners k rule Hk).
Defined.

(** The run of the spec's example: one rule passes, one fails with
    ["x"], one returns the error ["e"]. *)
Example Run_three_rules :
  Run samples.subject samples.no_filter samples.three_rules
  = Return (false, [{| oCode := "AM02"; oMessage := "x" |}], ["e"]).
Proof. vm_compute. reflexivity. Qed.

(** ** The filter *)

(** C2. [Includes] has two modes and never merges them: with a non-empty
    [enabled] set a rule is included exactly when its code is in it,
    whatever [disabled] holds; otherwise with a non-empty [disabled] set
    exactly when its code is not in it; with both empty always. In
    particular [enabled = {a}] selects exactly the rules of code [a] and
    [disabled = {a}] alone all the others. *)
Theorem Includes_two_modes (f : validatorsFilter) (rule : Validator) :
  (enabled f ≠ ∅ → (Includes f rule = true ↔ Code rule ∈ enabled f))
  ∧ (enabled f = ∅ → disabled f ≠ ∅ →
     (Includes f rule = true ↔ Code rule ∉ disabled f))
  ∧ (enabled f = ∅ → disabled f = ∅ → Includes f rule = true)
  ∧ (∀ a ds, Includes {| enabled := {[a]}; disabled := ds |} rule = true
             ↔ Code rule = a)
  ∧ (∀ a, Includes {| enabled := ∅; disabled := {[a]} |} rule = true
          ↔ Code rule ≠ a).
Proof.
  unfold Includes. split_and!.
  - intros He. destruct (decide (enabled f ≠ ∅)); [|done].
    apply bool_decide_eq_true.
  - intros He Hd. destruct (decide (enabled f ≠ ∅)); [done|].
    destruct (decide (disabled f ≠ ∅)); [|done]. apply bool_decide_eq_true.
  - intros He Hd. destruct (decide (enabled f ≠ ∅)); [done|].
    by destruct (decide (disabled f ≠ ∅)).
  - intros a ds. simpl. destruct (decide (_ ≠ _)) as [_|Hn].
    + rewrite bool_decide_eq_true. set_solver.
    + destruct Hn. set_solver.
  - intros a. simpl. destruct (decide (_ ≠ _)) as [Hn|_]; [done|].
    destruct (decide (_ ≠ _)) as [_|Hn].
    + rewrite bool_decide_eq_true. set_solver.
    + destruct Hn. set_solver.
Qed.

Section parsing_facts.

Lemma split_comma_nonempty (s cur : string) : split_comma s cur ≠ [].
Proof.
  revert cur. induction s as [|c s IH]; intros cur; simpl; [done|].
  destruct (Ascii.eqb c ","); [done|apply IH].
Qed.

Lemma append_assoc (a b c : string) : (a +:+ b) +:+ c = a +:+ b +:+ c.
Proof. induction a as [|x a IH]; [done|]. by rewrite !append_cons, IH. Qed.

(** Joining the fields with commas gives the list back. *)
Lemma concat_split_comma (s cur : string) :
  String.concat "," (split_comma s cur) = cur +:+ s.
Proof.
  revert cur. induction s as [|c s IH]; intros cur; simpl.
  - by rewrite append_nil_r.
  - destruct (Ascii.eqb c ",") eqn:E.
    + apply Ascii.eqb_eq in E as ->.
      specialize (IH ""). rewrite append_nil_l in IH.
      destruct (split_comma s "") as [|x xs] eqn:Es;
        [by apply split_comma_nonempty in Es|].
      cbn [String.concat]. cbn [String.concat] in IH. rewrite IH. reflexivity.
    + rewrite IH, append_assoc. reflexivity.
Qed.

Lemma trim_left_spec (s : string) :
  (∃ pre, s = pre +:+ trim_left s ∧ all_space pre = true)
  ∧ ∀ c r, trim_left s = String c r → isSpace c = false.
Proof.
  induction s as [|a s [(pre & Hpre & Hsp) IH]]; simpl.
  - split; [by exists ""|done].
  - destruct (isSpace a) eqn:Ea.
    + split; [|exact IH]. exists (String a pre). rewrite append_cons, <- Hpre.
      split; [done|]. simpl. by rewrite Ea.
    + split; [by exists ""|]. by intros c r [= <- _].
Qed.

Lemma trim_right_spec (s : string) :
  (∃ post, s = trim_right s +:+ post ∧ all_space post = true)
  ∧ (∀ r c, trim_right s = r +:+ String c "" → isSpace c = false)
  ∧ (∀ c r, s = String c r → isSpace c = false →
            ∃ r', trim_right s = String c r').
Proof.
  induction s as [|a s ((post & Hpost & Hsp) & IH & _)]; simpl.
  - split_and!; [by exists ""| |done].
    intros [|x r] c; [rewrite append_nil_l|rewrite append_cons]; done.
  - destruct (isSpace a && String.eqb (trim_right s) "")%bool eqn:E.
    + apply andb_prop in E as [Ea Er]. apply String.eqb_eq in Er.
      rewrite Er, append_nil_l in Hpost. subst post. split_and!.
      * exists (String a s). rewrite append_nil_l.
        split; [done|]. simpl. by rewrite Ea.
      * intros [|x r] c; [rewrite append_nil_l|rewrite append_cons]; done.
      * intros c r [= <- _] Hc. congruence.
    + split_and!.
      * exists post. by rewrite append_cons, <- Hpost.
      * intros [|x r] c.
        -- rewrite append_nil_l. intros [= <- Hr]. rewrite Hr in E.
           simpl in E. by rewrite andb_true_r in E.
        -- rewrite append_cons. intros [= _ Hr]. by eapply IH.
      * intros c r [= <- _] _. by eexists.
Qed.

(** [TrimSpace] takes white space off both ends, and nothing else. *)
Lemma TrimSpace_spec (s : string) :
  (∃ pre post, s = pre +:+ TrimSpace s +:+ post
               ∧ all_space pre = true ∧ all_space post = true)
  ∧ (∀ c r, TrimSpace s = String c r → isSpace c = false)
  ∧ (∀ r c, TrimSpace s = r +:+ String c "" → isSpace c = false).
Proof.
  unfold TrimSpace.
  destruct (trim_left_spec s) as ((pre & Hpre & Hsp) & Hfirst).
  destruct (trim_right_spec (trim_left s)) as ((post & Hpost & Hsp') & Hlast & Hkeep).
  split_and!; [|
    |exact Hlast].
  - exists pre, post. by rewrite <- Hpost.
  - intros c r Hc. destruct (trim_left s) as [|a l] eqn:El; [done|].
    pose proof (Hfirst a l eq_refl) as Ha.
    destruct (Hkeep a l eq_refl Ha) as [r' Hr']. rewrite Hr' in Hc.
    by injection Hc as <- _.
Qed.

Lemma elem_of_parseCodes (csv c : string) :
  c ∈ parseCodes csv
  ↔ c ≠ "" ∧ ∃ field, field ∈ split_comma csv "" ∧ c = TrimSpace field.
Proof.
  unfold parseCodes. rewrite list_elem_of_filter, list_elem_of_fmap.
  split; intros (? & field & ? & ?); eauto.
Qed.

Lemma unknownCodes_nil (reg : defaultRegistry) (codes : list string) :
  unknownCodes reg codes = [] ↔ ∀ c, c ∈ codes → is_Some (Data reg !! c).
Proof.
  unfold unknownCodes. induction codes as [|x codes IH]; simpl.
  - split; [intros _ c Hc; by apply elem_of_nil in Hc|done].
  - rewrite filter_cons. destruct (decide (Data reg !! x = None)) as [Hx|Hx].
    + split; [done|]. intros H. specialize (H x (list_elem_of_here _ _)).
      rewrite Hx in H. by destruct H.
    + rewrite IH. split.
      * intros H c Hc. apply elem_of_cons in Hc as [->|Hc]; [|by apply H].
        by apply not_eq_None_Some.
      * intros H c Hc. apply H. by apply list_elem_of_further.
Qed.

End parsing_facts.

Lemma NewFilter_cases (reg : defaultRegistry) (disabledCSV enabledCSV : string) :
  let ds := parseCodes disabledCSV in
  let es := parseCodes enabledCSV in
  ((ds ≠ [] ∧ es ≠ [] ∨ ∃ c, c ∈ ds ++ es ∧ Data reg !! c = None)
   ∧ ∃ err, NewFilter reg disabledCSV enabledCSV = inr err)
  ∨ ((ds = [] ∨ es = [])
     ∧ (∀ c, c ∈ ds ++ es → is_Some (Data reg !! c))
     ∧ NewFilter reg disabledCSV enabledCSV
       = inl {| enabled := list_to_set es; disabled := list_to_set ds |}).
Proof.
  intros ds es. unfold NewFilter. fold ds es.
  destruct (bool_decide (ds ≠ []) && bool_decide (es ≠ []))%bool eqn:Eb.
  - left. apply andb_prop in Eb as [Hd He].
    apply bool_decide_eq_true in Hd, He. split; [by left|by eexists].
  - assert (Hone : ds = [] ∨ es = []).
    { apply andb_false_iff in Eb as [H|H]; apply bool_decide_eq_false in H.
      - left. by destruct (decide (ds = [])).
      - right. by destruct (decide (es = [])). }
    destruct (unknownCodes reg (ds ++ es)) as [|c cs] eqn:Eu.
    + right. split_and!; [done| |done]. by apply unknownCodes_nil.
    + left. split; [|by eexists]. right. exists c.
      assert (Hc : c ∈ unknownCodes reg (ds ++ es)) by (rewrite Eu; left).
      unfold unknownCodes in Hc. by apply list_elem_of_filter in Hc as [? ?].
Qed.

(** C3. [NewFilter] fails exactly when both parsed lists are non-empty
    or a listed code is no key of the registry it is given; otherwise it
    succeeds with the two sets of parsed codes. A list is parsed by
    splitting at the commas, trimming the white space around each field
    and dropping the empty fields; the empty string gives no code. *)
Theorem NewFilter_configuration_errors (reg : defaultRegistry)
    (disabledCSV enabledCSV : string) :
  let ds := parseCodes disabledCSV in
  let es := parseCodes enabledCSV in
  ((∃ err, NewFilter reg disabledCSV enabledCSV = inr err)
   ↔ (ds ≠ [] ∧ es ≠ []) ∨ ∃ c, c ∈ ds ++ es ∧ Data reg !! c = None)
  ∧ (NewFilter reg disabledCSV enabledCSV
     = inl {| enabled := list_to_set es; disabled := list_to_set ds |}
     ↔ (ds = [] ∨ es = []) ∧ ∀ c, c ∈ ds ++ es → is_Some (Data reg !! c))
  ∧ parseCodes "" = []
  ∧ (∀ csv c, c ∈ parseCodes csv
              ↔ c ≠ "" ∧ ∃ field, field ∈ split_comma csv "" ∧ c = TrimSpace field)
  ∧ (∀ csv, String.concat "," (split_comma csv "") = csv)
  ∧ (∀ s, (∃ pre post, s = pre +:+ TrimSpace s +:+ post
                       ∧ all_space pre = true ∧ all_space post = true)
          ∧ (∀ c r, TrimSpace s = String c r → isSpace c = false)
          ∧ (∀ r c, TrimSpace s = r +:+ String c "" → isSpace c = false))
  ∧ parseCodes " AM0001 , ,AM0002," = ["AM0001"; "AM0002"].
Proof.
  intros ds es.
  pose proof (NewFilter_cases reg disabledCSV enabledCSV) as Hcases.
  fold ds es in Hcases. cbv zeta in Hcases.
  split_and!.
  - destruct Hcases as [[Hbad Herr]|(Hone & Hknown & Hok)]; [done|].
    split; [intros [err Herr]; congruence|].
    intros [[Hd He]|(c & Hc & Hnone)].
    + destruct Hone; done.
    + apply Hknown in Hc as [? Hc]. congruence.
  - destruct Hcases as [[Hbad [err Herr]]|(Hone & Hknown & Hok)]; [|done].
    split; [congruence|]. intros [Hone Hknown].
    destruct Hbad as [[Hd He]|(c & Hc & Hnone)].
    + destruct Hone; done.
    + apply Hknown in Hc as [? Hc]. congruence.
  - reflexivity.
  - apply elem_of_parseCodes.
  - intros csv. by rewrite concat_split_comma, append_nil_l.
  - apply TrimSpace_spec.
  - vm_compute. reflexivity.
Qed.

(** ** Exit status *)

Ltac ends_by c :=
  unfold exit_code; erewrite (ends_validateMain _ _ _ _ _ c); reflexivity.

(** C1, as stated, fails for one configuration error: a repeated rule
    code ends the process by the panic of [Add] in [init], and the exit
    status of a process that panics is 2, not 1. *)
Lemma duplicate_code_exit_status :
  ¬ NoDup (Code <$> [samples.AM01; samples.AM02; samples.AM01'])
  ∧ mtcli samples.world_ok [samples.AM01; samples.AM02; samples.AM01']
      defaultFlags "addons/reference-addon"
    = ([], inr (Crashed "Validator code AM01 already exist."))
  ∧ exit_code (mtcli samples.world_ok [samples.AM01; samples.AM02; samples.AM01']
                 defaultFlags "addons/reference-addon") = 2.
Proof.
  split_and!; [|vm_compute; reflexivity..].
  intros H. apply NoDup_cons in H as [H _]. apply H.
  right. left.
Qed.

(** C1, amended. The verdict of a run is success exactly when
    [hardErrors] and [failures] are both empty, and [ValidateCLI] hands
    the verdict and the hard errors of the run to the command. The exit
    status of the command is 0 exactly when every step before the rules
    succeeded and [ValidateCLI] returned success and no hard error; it is
    1 when the directory cannot be resolved, when the directory, the
    environment or the version is rejected, when the metadata cannot be
    loaded, when the bundles cannot be extracted, when the filter cannot
    be built, and when [ValidateCLI] returns a failure or a hard error.
    A repeated rule code is the one configuration error with another
    status: the process panics in [init] and exits with 2; with pairwise
    different codes the process is the command over the registry of
    these rules. *)
Theorem exit_code_follows_verdict (w : World) (reg : defaultRegistry)
    (flags : Flags) (arg0 : string) :
  let p := validateMain w reg flags arg0 in
  (∀ subject f success fs errs,
     Run subject f reg = Return (success, fs, errs) →
     (success = true ↔ errs = [] ∧ fs = []))
  ∧ (∀ subject f success errs,
       ValidateCLI reg subject f = Return (success, errs)
       ↔ ∃ fs, Run subject f reg = Return (success, fs, errs))
  ∧ (exit_code p = 0
     ↔ ∃ t meta bundles f,
         filtered w reg flags arg0 t meta bundles f
         ∧ ValidateCLI reg (NewMetaBundle meta bundles) f = Return (true, []))
  ∧ (∀ t0 err, parseAddonDir w arg0 = (t0, inl (inr err)) → exit_code p = 1)
  ∧ (∀ t0 d,
       parseAddonDir w arg0 = (t0, inl (inl d)) →
       os_Stat w d ≠ inl true
       ∨ verifyEnv (validateEnv flags) ≠ None
       ∨ verifyVersion (validateVersion flags) ≠ None →
       exit_code p = 1)
  ∧ (∀ t d err,
       checked w flags arg0 t d →
       MetaLoader_Load w d (validateEnv flags) (validateVersion flags) = inr err →
       exit_code p = 1)
  ∧ (∀ t meta indexImage err,
       loaded w flags arg0 t meta →
       IndexImage meta = Some indexImage →
       ExtractBundles w indexImage (OperatorName meta) = inr err →
       exit_code p = 1)
  ∧ (∀ t meta bundles err,
       extracted w flags arg0 t meta bundles →
       NewFilter reg (validateDisabled flags) (validateEnabled flags) = inr err →
       exit_code p = 1)
  ∧ (∀ t meta bundles f success errs,
       filtered w reg flags arg0 t meta bundles f →
       ValidateCLI reg (NewMetaBundle meta bundles) f = Return (success, errs) →
       success = false ∨ errs ≠ [] →
       exit_code p = 1)
  ∧ (∀ rules, ¬ NoDup (Code <$> rules) →
       exit_code (mtcli w rules flags arg0) = 2)
  ∧ (∀ rules, NoDup (Code <$> rules) →
       ∃ reg', register_all NewValidatorsRegistry rules = Return reg'
               ∧ mtcli w rules flags arg0 = validateMain w reg' flags arg0).
Proof.
  intros p. subst p. split_and!.
  - intros subject f success fs errs. apply Run_verdict.
  - intros subject f success errs. apply ValidateCLI_Run.
  - split.
    + pose proof (validateMain_ends w reg flags arg0) as Hends.
      destruct Hends as [| | | | | | | | |t meta bundles f Hf Hrun];
        unfold exit_code; cbn [snd]; try (intros [=]).
      by exists t, meta, bundles, f.
    + intros (t & meta & bundles & f & Hf & Hcli).
      ends_by (ends_success w reg flags arg0 t meta bundles f Hf Hcli).
  - intros t0 err Hp. ends_by (ends_parse w reg flags arg0 t0 err Hp).
  - intros t0 d Hp Hbad.
    destruct (validateMain_rejected w reg flags arg0 d t0 Hp Hbad) as [err ->].
    reflexivity.
  - intros t d err Hc Hl. ends_by (ends_load w reg flags arg0 t d err Hc Hl).
  - intros t meta i err Hl Hi He.
    ends_by (ends_extract w reg flags arg0 t meta i err Hl Hi He).
  - intros t meta bundles err Hx Hf.
    ends_by (ends_filter w reg flags arg0 t meta bundles err Hx Hf).
  - intros t meta bundles f success errs Hf Hcli Hbad.
    destruct errs as [|e errs].
    + assert (success = false) as -> by (by destruct Hbad).
      ends_by (ends_failures w reg flags arg0 t meta bundles f Hf Hcli).
    + ends_by (ends_hard_errors w reg flags arg0 t meta bundles f success
                 (e :: errs) Hf Hcli ltac:(done)).
  - intros rules Hdup.
    destruct (duplicate_codes_panic rules Hdup) as [msg Hmsg].
    by rewrite (mtcli_init_panic _ _ _ _ _ Hmsg).
  - intros rules Hnd.
    destruct (proj2 (register_all_returns_iff rules NewValidatorsRegistry))
      as [reg' Hreg].
    { split; [done|]. apply Forall_forall. intros x _. apply lookup_empty. }
    exists reg'. split; [done|]. by apply mtcli_init_return.
Qed.

(** ** When configuration errors are reported *)

Lemma checked_trace (w : World) (flags : Flags) (arg0 d : string)
    (t : list Event) :
  checked w flags arg0 t d → t = [EvStat d] ∨ t = [EvAbs arg0; EvStat d].
Proof.
  intros (t0 & t1 & Hp & Hv & ->).
  apply verifyArgsAndFlags_nil in Hv as (-> & _).
  apply parseAddonDir_trace in Hp as [-> | ->]; [by left|by right].
Qed.

(** Before the filter is built the metadata has been loaded and the
    bundles extracted. *)
Lemma extracted_trace (w : World) (flags : Flags) (arg0 : string)
    (t : list Event) (meta : AddonMetadataSpec) (bundles : list string) :
  extracted w flags arg0 t meta bundles →
  ∃ t' d indexImage,
    t = t' ++ [EvLoad d (validateEnv flags) (validateVersion flags);
               EvExtractBundles indexImage (OperatorName meta)]
    ∧ MetaLoader_Load w d (validateEnv flags) (validateVersion flags) = inl meta
    ∧ ExtractBundles w indexImage (OperatorName meta) = inl bundles
    ∧ (t' = [EvStat d] ∨ t' = [EvAbs arg0; EvStat d]).
Proof.
  intros (t1 & indexImage & (t2 & d & Hc & Hl & ->) & Hi & He & ->).
  exists t2, d, indexImage. rewrite <- app_assoc. split_and!; try done.
  by eapply checked_trace.
Qed.

Lemma filter_error_stops (w : World) (reg : defaultRegistry) (flags : Flags)
    (arg0 err : string) :
  NewFilter reg (validateDisabled flags) (validateEnabled flags) = inr err →
  exit_code (validateMain w reg flags arg0) ≠ 0
  ∧ Forall (λ e, e ≠ EvValidateCLI) (trace (validateMain w reg flags arg0)).
Proof.
  intros Hf. pose proof (validateMain_ends w reg flags arg0) as Hends.
  destruct Hends; unfold exit_code, trace; cbn [fst snd];
    try (match goal with
         | H : filtered _ _ _ _ _ _ _ _ |- _ =>
             destruct H as (? & _ & H & _); congruence
         end);
    (split; [done|]);
    repeat match goal with
    | H : extracted _ _ _ _ _ _ |- _ =>
        apply extracted_trace in H as (? & ? & ? & -> & _ & _ & [-> | ->])
    | H : loaded _ _ _ _ _ |- _ => destruct H as (? & ? & H & _ & ->)
    | H : checked _ _ _ _ _ |- _ => apply checked_trace in H as [-> | ->]
    | H : verifyArgsAndFlags _ _ _ = _ |- _ =>
        apply verifyArgsAndFlags_error in H as (-> & _)
    | H : parseAddonDir _ _ = _ |- _ =>
        apply parseAddonDir_trace in H as [-> | ->]
    end;
    cbn [app]; repeat constructor; done.
Qed.

(** C6, as stated, fails: with both [--disabled] and [--enabled] given,
    and with an unknown code, the error of the filter is printed after
    the metadata has been loaded and the bundles extracted. *)
Lemma filter_error_reported_after_extraction :
  ((∃ err, NewFilter samples.three_rules "AM01" "AM02" = inr err)
   ∧ validateMain samples.world_ok samples.three_rules samples.flags_both
       "/addons/reference-addon"
     = ([EvStat "/addons/reference-addon";
         EvLoad "/addons/reference-addon" "stage" "";
         EvExtractBundles "quay.io/osd-addons/reference-addon-index"
           "reference-addon";
         EvNewFilter "AM01" "AM02";
         EvPrintf
           (fatal_text
              "unable to process filter flags: can't set both disabled and enabled, they are mutually exclusive")],
        inr (Exited 1))
   ∧ ¬ Forall (λ e, is_load_or_extract e = false)
         (trace (validateMain samples.world_ok samples.three_rules
                   samples.flags_both "/addons/reference-addon")))
  ∧ ((∃ err, NewFilter samples.three_rules "" "AM99" = inr err)
     ∧ validateMain samples.world_ok samples.three_rules samples.flags_unknown
         "/addons/reference-addon"
       = ([EvStat "/addons/reference-addon";
           EvLoad "/addons/reference-addon" "stage" "";
           EvExtractBundles "quay.io/osd-addons/reference-addon-index"
             "reference-addon";
           EvNewFilter "" "AM99";
           EvPrintf
             (fatal_text
                "unable to process filter flags: validator code 'AM99' does not exist")],
          inr (Exited 1))
     ∧ ¬ Forall (λ e, is_load_or_extract e = false)
           (trace (validateMain samples.world_ok samples.three_rules
                     samples.flags_unknown "/addons/reference-addon"))).
Proof.
  assert (H1 : validateMain samples.world_ok samples.three_rules
                 samples.flags_both "/addons/reference-addon"
               = ([EvStat "/addons/reference-addon";
                   EvLoad "/addons/reference-addon" "stage" "";
                   EvExtractBundles "quay.io/osd-addons/reference-addon-index"
                     "reference-addon";
                   EvNewFilter "AM01" "AM02";
                   EvPrintf
                     (fatal_text
                        "unable to process filter flags: can't set both disabled and enabled, they are mutually exclusive")],
                  inr (Exited 1)))
    by (vm_compute; reflexivity).
  assert (H2 : validateMain samples.world_ok samples.three_rules
                 samples.flags_unknown "/addons/reference-addon"
               = ([EvStat "/addons/reference-addon";
                   EvLoad "/addons/reference-addon" "stage" "";
                   EvExtractBundles "quay.io/osd-addons/reference-addon-index"
                     "reference-addon";
                   EvNewFilter "" "AM99";
                   EvPrintf
                     (fatal_text
                        "unable to process filter flags: validator code 'AM99' does not exist")],
                  inr (Exited 1)))
    by (vm_compute; reflexivity).
  split; (split; [eexists; vm_compute; reflexivity|]); (split; [done|]).
  - rewrite H1. unfold trace; cbn [fst]. intros H.
    apply Forall_cons in H as [_ H]. apply Forall_cons in H as [H _]. done.
  - rewrite H2. unfold trace; cbn [fst]. intros H.
    apply Forall_cons in H as [_ H]. apply Forall_cons in H as [H _]. done.
Qed.

(** C6, amended. Every configuration error is fatal. A repeated rule
    code stops the process in [init], before [main] and with an empty
    trace. A path that is no directory, an invalid environment and an
    invalid version are reported right after the [os.Stat] of the
    directory, with exit status 1, before the metadata is loaded, the
    bundles are extracted or the registry is read. An error of the filter
    (both lists non-empty, unknown code) keeps every rule from running
    and gives a non-zero exit status; it is reported with exit status 1
    once the metadata has been loaded and the bundles extracted. *)
Theorem configuration_errors_are_fatal (w : World) (reg : defaultRegistry)
    (flags : Flags) (arg0 : string) :
  (∀ rules, ¬ NoDup (Code <$> rules) →
     ∃ msg, mtcli w rules flags arg0 = ([], inr (Crashed msg)))
  ∧ (∀ t0 d,
       parseAddonDir w arg0 = (t0, inl (inl d)) →
       os_Stat w d = inl false
       ∨ verifyEnv (validateEnv flags) ≠ None
       ∨ verifyVersion (validateVersion flags) ≠ None →
       ∃ err,
         validateMain w reg flags arg0
         = (t0 ++ [EvStat d;
                   EvPrintf (fatal_text ("unable to process flag or argument: "
                                           +:+ err))],
            inr (Exited 1))
         ∧ Forall (λ e, is_load_or_extract e = false ∧ reads_registry e = false)
             (trace (validateMain w reg flags arg0)))
  ∧ (∀ err,
       NewFilter reg (validateDisabled flags) (validateEnabled flags) = inr err →
       exit_code (validateMain w reg flags arg0) ≠ 0
       ∧ Forall (λ e, e ≠ EvValidateCLI) (trace (validateMain w reg flags arg0)))
  ∧ (∀ t meta bundles err,
       extracted w flags arg0 t meta bundles →
       NewFilter reg (validateDisabled flags) (validateEnabled flags) = inr err →
       validateMain w reg flags arg0
       = (t ++ [EvNewFilter (validateDisabled flags) (validateEnabled flags);
                EvPrintf (fatal_text ("unable to process filter flags: " +:+ err))],
          inr (Exited 1))
       ∧ ∃ t' d indexImage,
           t = t' ++ [EvLoad d (validateEnv flags) (validateVersion flags);
                      EvExtractBundles indexImage (OperatorName meta)]).
Proof.
  split_and!.
  - intros rules Hdup.
    destruct (duplicate_codes_panic rules Hdup) as [msg Hmsg].
    exists msg. by apply mtcli_init_panic.
  - intros t0 d Hp Hbad.
    destruct (validateMain_rejected w reg flags arg0 d t0 Hp) as [err Hrun].
    { destruct Hbad as [Hs|[He|Hv]]; [left; congruence|tauto|tauto]. }
    exists err. split; [done|]. rewrite Hrun. unfold trace; cbn [fst].
    apply parseAddonDir_trace in Hp as [-> | ->]; repeat constructor.
  - intros err. apply filter_error_stops.
  - intros t meta bundles err Hx Hf. split.
    + apply ends_validateMain. by eapply ends_filter.
    + apply extracted_trace in Hx as (t' & d & i & -> & _). eauto.
Qed.

(** ** Runs on the samples *)

Example IsValid_samples :
  semver.IsValid <$> ["v2.1.0"; "v2.1.x"; "v2.1"; "v2"; "v"; "vlatest";
                      "v1.2.3-rc.1+b.7"; "v01.2.3"; "v1.2.3-01"; "v1.2.3+";
                      "2.1.0"; "v1.2.3.4"; "v1.2.3-a..b"]
  = [true; false; true; true; false; false;
     true; false; false; false;
     false; false; false].
Proof. vm_compute. reflexivity. Qed.

Example verifyEnv_samples :
  verifyEnv <$> ["integration"; "stage"; "production"; "prod"; ""; "Stage"]
  = [None; None; None;
     Some "'prod' is not a valid environment; must be one of 'integration', 'stage' or 'production'";
     Some "'' is not a valid environment; must be one of 'integration', 'stage' or 'production'";
     Some "'Stage' is not a valid environment; must be one of 'integration', 'stage' or 'production'"].
Proof. vm_compute. reflexivity. Qed.

Example run_with_invalid_env :
  validateMain samples.world_ok samples.three_rules (samples.flags_env "prod")
    "addons/reference-addon"
  = ([EvAbs "addons/reference-addon";
      EvStat "/work/addons/reference-addon";
      EvPrintf
        (fatal_text
           "unable to process flag or argument: 'prod' is not a valid environment; must be one of 'integration', 'stage' or 'production'")],
     inr (Exited 1)).
Proof. vm_compute. reflexivity. Qed.

Example run_with_invalid_version :
  validateMain samples.world_ok samples.three_rules
    (samples.flags_version "2.1.x") "/addons/reference-addon"
  = ([EvStat "/addons/reference-addon";
      EvPrintf
        (fatal_text
           "unable to process flag or argument: '2.1.x' is not a valid version; must be one of 'latest' or match 'MAJOR.MINOR.PATCH'")],
     inr (Exited 1)).
Proof. vm_compute. reflexivity. Qed.

Example run_on_a_file :
  validateMain samples.world_file samples.three_rules defaultFlags
    "/addons/reference-addon"
  = ([EvStat "/addons/reference-addon";
      EvPrintf
        (fatal_text
           "unable to process flag or argument: '/addons/reference-addon' is not a directory")],
     inr (Exited 1)).
Proof. vm_compute. reflexivity. Qed.

Example run_with_a_hard_error :
  validateMain samples.world_ok samples.three_rules defaultFlags
    "/addons/reference-addon"
  = ([EvStat "/addons/reference-addon";
      EvLoad "/addons/reference-addon" "stage" "";
      EvExtractBundles "quay.io/osd-addons/reference-addon-index" "reference-addon";
      EvNewFilter "" "";
      EvValidateCLI;
      EvPrintValidationErrors ["e"]],
     inr (Exited 1)).
Proof. vm_compute. reflexivity. Qed.

Example run_of_a_passing_rule :
  mtcli samples.world_ok [samples.AM01] defaultFlags "/addons/reference-addon"
  = ([EvStat "/addons/reference-addon";
      EvLoad "/addons/reference-addon" "stage" "";
      EvExtractBundles "quay.io/osd-addons/reference-addon-index" "reference-addon";
      EvNewFilter "" "";
      EvValidateCLI],
     inl tt)
  ∧ exit_code (mtcli samples.world_ok [samples.AM01] defaultFlags
                 "/addons/reference-addon") = 0.
Proof. split; vm_compute; reflexivity. Qed.

Example run_with_rule_disabled :
  Run samples.subject {| enabled := ∅; disabled := {["AM03"]} |} samples.three_rules
  = Return (false, [{| oCode := "AM02"; oMessage := "x" |}], [])
  ∧ Run samples.subject {| enabled := {["AM01"]}; disabled := ∅ |} samples.three_rules
    = Return (true, [], []).
Proof. split; vm_compute; reflexivity. Qed.

Example register_twice :
  register_all NewValidatorsRegistry [samples.AM01; samples.AM01']
  = Panicked "Validator code AM01 already exist."
  ∧ register_all NewValidatorsRegistry [samples.AM01'; samples.AM01]
    = Panicked "Validator code AM01 already exist.".
Proof. split; vm_compute; reflexivity. Qed.

Example NewFilter_samples :
  NewFilter samples.three_rules "AM01" "AM02"
  = inr "can't set both disabled and enabled, they are mutually exclusive"
  ∧ NewFilter samples.three_rules "" " AM02 ,AM99"
    = inr "validator code 'AM99' does not exist"
  ∧ (∃ f, NewFilter samples.three_rules " AM01 , ,AM03," " , " = inl f
          ∧ Includes f <$> [samples.AM01; samples.AM02; samples.AM03]
            = [false; true; false])
  ∧ (∃ f, NewFilter samples.three_rules "" "AM02" = inl f
          ∧ Includes f <$> [samples.AM01; samples.AM02; samples.AM03]
            = [false; true; false])
  ∧ (∃ f, NewFilter samples.three_rules "" "" = inl f
          ∧ Includes f <$> [samples.AM01; samples.AM02; samples.AM03]
            = [true; true; true]).
Proof.
  split_and!; [vm_compute; reflexivity..| | |];
    eexists; (split; [vm_compute; reflexivity|vm_compute; reflexivity]).
Qed.

(** AM0004 with decoders that know one icon: ["aWNvbg=="] decodes to
    bytes that are no PNG, ["cG5n"] to bytes that are one, anything else
    is no base64. *)
Example ValidateIconBase64_samples :
  let decode := λ icon : string,
    if decide (icon = "aWNvbg==") then inl [Byte.x69; Byte.x63; Byte.x6f; Byte.x6e]
    else if decide (icon = "cG5n") then inl [Byte.x70; Byte.x6e; Byte.x67]
    else inr "illegal base64 data at input byte 0" in
  let png := λ bytes : list Byte.byte,
    if (length bytes =? 3)%nat then None
    else Some "png: invalid format: not a PNG file" in
  let mb := λ icon,
    {| AddonMeta := {| ID := "reference-addon"; Icon := icon;
                       OperatorName := "reference-addon"; IndexImage := None |};
       Bundles := [] |} in
  am0004.ValidateIconBase64 decode png <$> [mb ""; mb "?"; mb "aWNvbg=="; mb "cG5n"]
  = [(false, "`icon` not found under the addon metadata of reference-addon", None);
     (false,
      "`icon` found to be improperly base64 populated under the addon metadata of reference-addon",
      None);
     (false,
      "`icon`'s base64 value found to correspond to a non-png data under the addon metadata of reference-addon",
      None);
     (true,
      "`icon`'s base64 value found to correspond to a non-png data under the addon metadata of reference-addon",
      None)].
Proof. vm_compute. reflexivity. Qed.

(** * Further properties *)

Import observed.

(** ** The registry as [init] builds it *)

Section registration_facts.

Implicit Types (r : defaultRegistry) (v : Validator) (k : string).

Lemma Add_keeps r r' v k x :
  Add r v = Return r' → Data r !! k = Some x → Data r' !! k = Some x.
Proof.
  unfold Add. destruct (Data r !! Code v) eqn:E; [done|]. intros [= <-] Hk.
  simpl. rewrite lookup_insert_ne; [done|]. congruence.
Qed.

(** What a successful registration of a list leaves in the map. *)
Lemma register_all_lookup (vs : list Validator) r r' :
  register_all r vs = Return r' →
  (∀ v, v ∈ vs → Data r' !! Code v = Some v)
  ∧ (∀ k, k ∉ Code <$> vs → Data r' !! k = Data r !! k)
  ∧ size (Data r') = (length vs + size (Data r))%nat.
Proof.
  revert r. induction vs as [|x vs IH]; intros r; simpl.
  - intros [= <-]. split_and!; [|done..]. intros v Hv. by apply elem_of_nil in Hv.
  - destruct (Add r x) as [r1|] eqn:E1; simpl; [|done]. intros Hrest.
    destruct (IH r1 Hrest) as (Hin & Hout & Hsize).
    assert (Hfresh : Data r !! Code x = None).
    { apply Add_returns_iff. rewrite E1. apply returns_Return. }
    rewrite (Add_fresh _ _ Hfresh) in E1. injection E1 as <-. simpl in *.
    assert (Hnd : Code x ∉ Code <$> vs).
    { assert (Hr : returns (register_all
                              {| Data := <[Code x:=x]> (Data r) |} vs))
        by (rewrite Hrest; apply returns_Return).
      apply register_all_returns_iff in Hr as [_ Hall]. intros Hc.
      apply list_elem_of_fmap in Hc as (y & Hy & Hyin).
      rewrite Forall_forall in Hall. specialize (Hall y Hyin). simpl in Hall.
      rewrite <- Hy, lookup_insert_eq in Hall. discriminate. }
    split_and!.
    + intros v Hv. apply elem_of_cons in Hv as [->|Hv]; [|by apply Hin].
      rewrite (Hout _ Hnd). apply lookup_insert_eq.
    + intros k Hk. apply not_elem_of_cons in Hk as [Hne Hk].
      rewrite (Hout _ Hk). by rewrite lookup_insert_ne.
    + rewrite Hsize, map_size_insert_None by done. lia.
Qed.

End registration_facts.

(** X1. In the registry that [init] builds from the empty one, whatever
    the calls, a rule is stored under its own code: what [Get(k)] finds
    has [Code] [k]. *)
Theorem Get_returns_rule_of_code (calls : list RegistryCall) (k : string)
    (v : Validator) :
  Get (foldl registry_after NewValidatorsRegistry calls) k = (v, true) →
  Code v = k.
Proof.
  rewrite Get_found.
  assert (Hinv : ∀ r, map_Forall (λ k v, Code v = k) (Data r) →
                      map_Forall (λ k v, Code v = k)
                        (Data (foldl registry_after r calls))).
  { induction calls as [|call calls IH]; intros r Hr; simpl; [done|].
    apply IH. destruct call as [x| | |]; simpl; try done.
    unfold Add. destruct (Data r !! Code x) eqn:E; simpl; [done|].
    by apply map_Forall_insert_2. }
  apply (Hinv NewValidatorsRegistry). apply map_Forall_empty.
Qed.

Lemma Get_returns_rule_of_code_witness :
  Get (foldl registry_after NewValidatorsRegistry
         [CallAdd samples.AM01; CallGet "AM02"; CallAdd samples.AM01';
          CallLen; CallAdd samples.AM02])
    "AM01" = (samples.AM01, true)
  ∧ Code samples.AM01 = "AM01".
Proof.
  split; [vm_compute; reflexivity|].
  apply (Get_returns_rule_of_code
           [CallAdd samples.AM01; CallGet "AM02"; CallAdd samples.AM01';
            CallLen; CallAdd samples.AM02] "AM01" samples.AM01).
  vm_compute; reflexivity.
Defined.

(** X2. When the registration of a list of rules into the empty registry
    goes through, [Len] is the number of rules, [Get] finds every rule
    under its code and nothing under any other key, and the keys of
    [All] are the codes of the rules. *)
Theorem register_all_registers (vs : list Validator) (reg : defaultRegistry) :
  register_all NewValidatorsRegistry vs = Return reg →
  Len reg = Z.of_nat (length vs)
  ∧ (∀ v, v ∈ vs → Get reg (Code v) = (v, true))
  ∧ (∀ k, k ∉ Code <$> vs → Get reg k = (zero_Validator, false))
  ∧ dom (All reg) = list_to_set (Code <$> vs).
Proof.
  intros Hreg. destruct (register_all_lookup vs _ _ Hreg) as (Hin & Hout & Hsize).
  simpl in Hout, Hsize. split_and!.
  - unfold Len. rewrite Hsize, map_size_empty. lia.
  - intros v Hv. apply Get_found. by apply Hin.
  - intros k Hk. unfold Get. by rewrite (Hout k Hk), lookup_empty.
  - unfold All. apply set_eq. intros k. rewrite elem_of_dom, elem_of_list_to_set.
    split.
    + intros Hk. destruct (decide (k ∈ Code <$> vs)) as [|Hn]; [done|].
      rewrite (Hout k Hn), lookup_empty in Hk. by destruct Hk.
    + intros Hk. apply list_elem_of_fmap in Hk as (v & -> & Hv).
      rewrite (Hin v Hv). by eexists.
Qed.

Lemma register_all_registers_witness :
  register_all NewValidatorsRegistry [samples.AM03; samples.AM01; samples.AM02]
  = Return samples.three_rules
  ∧ Len samples.three_rules = 3
  ∧ (∀ v, v ∈ [samples.AM03; samples.AM01; samples.AM02] →
          Get samples.three_rules (Code v) = (v, true))
  ∧ (∀ k, k ∉ Code <$> [samples.AM03; samples.AM01; samples.AM02] →
          Get samples.three_rules k = (zero_Validator, false))
  ∧ dom (All samples.three_rules)
    = list_to_set (Code <$> [samples.AM03; samples.AM01; samples.AM02]).
Proof.
  split; [vm_compute; reflexivity|].
  apply (register_all_registers [samples.AM03; samples.AM01; samples.AM02]
           samples.three_rules).
  vm_compute; reflexivity.
Defined.

(** X3. The order of the [init] functions does not matter: if a list of
    rules registers, every rearrangement of it registers too and gives
    the same registry. *)
Theorem register_all_order_irrelevant (r r' : defaultRegistry)
    (vs vs' : list Validator) :
  vs ≡ₚ vs' →
  register_all r vs = Return r' →
  register_all r vs' = Return r'.
Proof.
  intros Hperm Hreg.
  assert (Hret : returns (register_all r vs'))
    by (apply register_all_returns_iff; rewrite <- Hperm;
        apply register_all_returns_iff; rewrite Hreg; apply returns_Return).
  destruct Hret as [r'' Hreg']. rewrite Hreg'. f_equal.
  destruct (register_all_lookup vs _ _ Hreg) as (Hin & Hout & _).
  destruct (register_all_lookup vs' _ _ Hreg') as (Hin' & Hout' & _).
  destruct r' as [m'], r'' as [m'']. simpl in *. f_equal.
  apply map_eq. intros k.
  destruct (decide (k ∈ Code <$> vs)) as [Hk|Hk].
  - apply list_elem_of_fmap in Hk as (v & -> & Hv).
    rewrite (Hin v Hv). apply Hin'. by rewrite <- Hperm.
  - rewrite (Hout k Hk). apply Hout'. by rewrite <- Hperm.
Qed.

Lemma register_all_order_irrelevant_witness :
  ([samples.AM03; samples.AM01; samples.AM02]
     ≡ₚ [samples.AM01; samples.AM02; samples.AM03]
   ∧ register_all NewValidatorsRegistry [samples.AM03; samples.AM01; samples.AM02]
     = Return samples.three_rules)
  ∧ register_all NewValidatorsRegistry [samples.AM01; samples.AM02; samples.AM03]
    = Return samples.three_rules.
Proof.
  assert (Hp : [samples.AM03; samples.AM01; samples.AM02]
                 ≡ₚ [samples.AM01; samples.AM02; samples.AM03]).
  { etrans; [apply Permutation_swap|]. apply Permutation_skip.
    apply Permutation_swap. }
  assert (Hr : register_all NewValidatorsRegistry
                 [samples.AM03; samples.AM01; samples.AM02]
               = Return samples.three_rules) by (vm_compute; reflexivity).
  split; [by split|].
  exact (register_all_order_irrelevant NewValidatorsRegistry samples.three_rules
           _ _ Hp Hr).
Defined.

(** ** Rule AM0004: when it passes *)

(** X4. [ValidateIconBase64] passes exactly when the icon is not empty,
    decodes as base64 and the bytes decode as PNG. Its message is never
    empty and always ends with the addon's ID; when the rule passes the
    message is still the one about non-PNG data. *)
Theorem ValidateIconBase64_passes_iff
    (base64_DecodeString : string → list Byte.byte + error)
    (png_Decode : list Byte.byte → option error) (mb : MetaBundle) :
  let result := am0004.ValidateIconBase64 base64_DecodeString png_Decode mb in
  let id := ID (AddonMeta mb) in
  let icon := Icon (AddonMeta mb) in
  (result.1.1 = true
   ↔ icon ≠ "" ∧ ∃ bytes, base64_DecodeString icon = inl bytes
                          ∧ png_Decode bytes = None)
  ∧ (result.1.1 = true →
     result.1.2 =
       "`icon`'s base64 value found to correspond to a non-png data under the addon metadata of "
         +:+ id)
  ∧ result.1.2 ≠ ""
  ∧ ∃ text, result.1.2 = text +:+ id.
Proof.
  intros result id icon. subst result id icon.
  unfold am0004.ValidateIconBase64.
  destruct (decide (Icon (AddonMeta mb) = "")) as [He|Hne]; simpl.
  - split_and!; [|done|done|by eexists].
    split; [done|]. by intros [? _].
  - destruct (base64_DecodeString (Icon (AddonMeta mb))) as [bytes|err] eqn:Ed;
      simpl.
    + split_and!; [|done|done|by eexists].
      rewrite bool_decide_eq_true. split.
      * intros Hp. split; [done|]. by exists bytes.
      * intros (_ & b & [= <-] & Hp). done.
    + split_and!; [|done|done|by eexists].
      split; [done|]. by intros (_ & b & [=] & _).
Qed.

(** ** The checks before the run *)

Lemma parseAddonDir_cases (w : World) (arg0 : string) (t0 : list Event)
    (r : string + error) :
  parseAddonDir w arg0 = (t0, inl r) →
  (path_IsAbs arg0 = true ∧ t0 = [] ∧ r = inl arg0)
  ∨ (path_IsAbs arg0 = false ∧ t0 = [EvAbs arg0] ∧ filepath_Abs w arg0 = r).
Proof.
  unfold parseAddonDir. destruct (path_IsAbs arg0); cbn; intros [= <- <-]; auto.
Qed.

Lemma verifyArgsAndFlags_accepts (w : World) (flags : Flags) (d : string) :
  os_Stat w d = inl true →
  verifyEnv (validateEnv flags) = None →
  verifyVersion (validateVersion flags) = None →
  verifyArgsAndFlags w flags d = ([EvStat d], inl None).
Proof.
  intros Hs He Hv. unfold verifyArgsAndFlags, verifyAddonDir.
  rewrite Hs. cbn. rewrite He, Hv. reflexivity.
Qed.

(** X5. [verifyArgsAndFlags] makes one [os.Stat] and returns; it returns
    [nil] exactly when the path is a directory, the environment is valid
    and the version is valid. The checks are made in this order and the
    first that fails gives the error: the wrapped error of [os.Stat] or
    the message that names the path, before the error of the
    environment, before the error of the version. *)
Theorem verifyArgsAndFlags_first_failure (w : World) (flags : Flags)
    (addonDir : string) :
  ∃ err,
    verifyArgsAndFlags w flags addonDir = ([EvStat addonDir], inl err)
    ∧ (err = None
       ↔ os_Stat w addonDir = inl true
         ∧ verifyEnv (validateEnv flags) = None
         ∧ verifyVersion (validateVersion flags) = None)
    ∧ (∀ e, os_Stat w addonDir = inr e →
            err = Some ("error while reading directory: " +:+ e))
    ∧ (os_Stat w addonDir = inl false →
       err = Some ("'" +:+ addonDir +:+ "' is not a directory"))
    ∧ (os_Stat w addonDir = inl true →
       ∀ e, verifyEnv (validateEnv flags) = Some e → err = Some e)
    ∧ (os_Stat w addonDir = inl true →
       verifyEnv (validateEnv flags) = None →
       err = verifyVersion (validateVersion flags)).
Proof.
  unfold verifyArgsAndFlags, verifyAddonDir.
  destruct (os_Stat w addonDir) as [[|]|e0]; cbn;
    [destruct (verifyEnv (validateEnv flags)) as [e|] eqn:Ee; cbn| |];
    (eexists; split; [reflexivity|]); split_and!; try done;
    try (split; [done|]; intros (? & ? & ?); done);
    try (intros e' [= <-]; done);
    try (intros _ e' [= <-]; done).
Qed.

(** ** Order and arguments of the calls of [validateMain] *)

Ltac open_run :=
  open_stages;
  repeat match goal with
  | H : verifyArgsAndFlags _ _ _ = (_, inl None) |- _ =>
      apply verifyArgsAndFlags_nil in H as (-> & ? & ? & ?)
  | H : verifyArgsAndFlags _ _ _ = (_, inl (Some _)) |- _ =>
      apply verifyArgsAndFlags_error in H as (-> & ?)
  | H : parseAddonDir _ _ = (_, inl _) |- _ =>
      apply parseAddonDir_cases in H as [(? & -> & ?) | (? & -> & ?)]
  end;
  rewrite <- ?app_assoc; cbn [app].

(** X6. The metadata loader is called only with the flags'
    environment and version, after both passed their check, and only on
    the resolved path of the argument, after [os.Stat] found a directory
    there. *)
Theorem Load_only_after_verification (w : World) (reg : defaultRegistry)
    (flags : Flags) (arg0 d env version : string) :
  EvLoad d env version ∈ trace (validateMain w reg flags arg0) →
  env = validateEnv flags ∧ version = validateVersion flags
  ∧ verifyEnv env = None ∧ verifyVersion version = None
  ∧ os_Stat w d = inl true
  ∧ (path_IsAbs arg0 = true ∧ d = arg0
     ∨ path_IsAbs arg0 = false ∧ filepath_Abs w arg0 = inl d).
Proof.
  pose proof (validateMain_ends w reg flags arg0) as Hends.
  destruct Hends; unfold trace; cbn [fst]; open_run; intros Hin;
    set_unfold in Hin; destruct_or!; try discriminate;
    injection Hin as -> -> ->; split_and!; try done;
    first [left; split; congruence | right; split; congruence].
Qed.

Lemma Load_only_after_verification_witness :
  EvLoad "/addons/reference-addon" "stage" ""
    ∈ trace (validateMain samples.world_ok samples.three_rules defaultFlags
               "/addons/reference-addon")
  ∧ "stage" = validateEnv defaultFlags ∧ "" = validateVersion defaultFlags
  ∧ verifyEnv "stage" = None ∧ verifyVersion "" = None
  ∧ os_Stat samples.world_ok "/addons/reference-addon" = inl true
  ∧ (path_IsAbs "/addons/reference-addon" = true
     ∧ "/addons/reference-addon" = "/addons/reference-addon"
     ∨ path_IsAbs "/addons/reference-addon" = false
       ∧ filepath_Abs samples.world_ok "/addons/reference-addon"
         = inl "/addons/reference-addon").
Proof.
  assert (Hin : EvLoad "/addons/reference-addon" "stage" ""
                  ∈ trace (validateMain samples.world_ok samples.three_rules
                             defaultFlags "/addons/reference-addon")).
  { vm_compute. apply list_elem_of_further, list_elem_of_here. }
  split; [exact Hin|].
  exact (Load_only_after_verification samples.world_ok samples.three_rules
           defaultFlags "/addons/reference-addon" "/addons/reference-addon"
           "stage" "" Hin).
Defined.

(** X7. The bundle extractor is called only with the index image and
    the operator name of the metadata that the loader returned. *)
Theorem ExtractBundles_of_loaded_metadata (w : World) (reg : defaultRegistry)
    (flags : Flags) (arg0 indexImage operatorName : string) :
  EvExtractBundles indexImage operatorName
    ∈ trace (validateMain w reg flags arg0) →
  ∃ d meta,
    MetaLoader_Load w d (validateEnv flags) (validateVersion flags) = inl meta
    ∧ IndexImage meta = Some indexImage
    ∧ operatorName = OperatorName meta
    ∧ EvLoad d (validateEnv flags) (validateVersion flags)
        ∈ trace (validateMain w reg flags arg0).
Proof.
  pose proof (validateMain_ends w reg flags arg0) as Hends.
  destruct Hends; unfold trace; cbn [fst]; open_run; intros Hin;
    set_unfold in Hin; destruct_or!; try discriminate;
    injection Hin as -> ->; eexists _, _; split_and!; try done;
    set_unfold; auto 10.
Qed.

Lemma ExtractBundles_of_loaded_metadata_witness :
  EvExtractBundles "quay.io/osd-addons/reference-addon-index" "reference-addon"
    ∈ trace (validateMain samples.world_ok samples.three_rules defaultFlags
               "/addons/reference-addon")
  ∧ ∃ d meta,
      MetaLoader_Load samples.world_ok d (validateEnv defaultFlags)
        (validateVersion defaultFlags) = inl meta
      ∧ IndexImage meta = Some "quay.io/osd-addons/reference-addon-index"
      ∧ "reference-addon" = OperatorName meta
      ∧ EvLoad d (validateEnv defaultFlags) (validateVersion defaultFlags)
          ∈ trace (validateMain samples.world_ok samples.three_rules
                     defaultFlags "/addons/reference-addon").
Proof.
  assert (Hin : EvExtractBundles "quay.io/osd-addons/reference-addon-index"
                  "reference-addon"
                  ∈ trace (validateMain samples.world_ok samples.three_rules
                             defaultFlags "/addons/reference-addon")).
  { vm_compute. do 2 apply list_elem_of_further. apply list_elem_of_here. }
  split; [exact Hin|].
  exact (ExtractBundles_of_loaded_metadata samples.world_ok samples.three_rules
           defaultFlags "/addons/reference-addon" _ _ Hin).
Defined.



(** X9. The calls of a run come in one order, each at most once:
    resolution of the path, [os.Stat], metadata load, bundle extraction,
    construction of the filter, run of the rules; a report, if there is
    one, is the last event and the only one. *)
Theorem validateMain_calls_in_order (w : World) (reg : defaultRegistry)
    (flags : Flags) (arg0 : string) :
  StronglySorted (λ a b, (event_rank a < event_rank b)%nat)
    (trace (validateMain w reg flags arg0)).
Proof.
  pose proof (validateMain_ends w reg flags arg0) as Hends.
  destruct Hends; unfold trace; cbn [fst]; open_run;
    repeat (apply SSorted_cons || apply SSorted_nil
            || apply Forall_cons || apply Forall_nil || (split; [|]));
    cbn; lia.
Qed.

(** X10. The comment of [verifyAddonDir] holds: when [filepath.Abs]
    returns absolute paths, [os.Stat] and the metadata loader are only
    called on an absolute path, also when the argument is relative. *)
Theorem validateMain_uses_absolute_path (w : World) (reg : defaultRegistry)
    (flags : Flags) (arg0 : string) :
  (∀ dir r, filepath_Abs w dir = inl r → path_IsAbs r = true) →
  ∀ e, e ∈ trace (validateMain w reg flags arg0) →
       match e with
       | EvStat d | EvLoad d _ _ => path_IsAbs d = true
       | _ => True
       end.
Proof.
  intros Habs.
  pose proof (validateMain_ends w reg flags arg0) as Hends.
  destruct Hends; unfold trace; cbn [fst]; open_run; intros e Hin;
    set_unfold in Hin; destruct_or!; subst e; try done;
    first [by eapply Habs | congruence].
Qed.

Lemma validateMain_uses_absolute_path_witness :
  (∀ dir r, filepath_Abs samples.world_ok dir = inl r → path_IsAbs r = true)
  ∧ ∀ e, e ∈ trace (validateMain samples.world_ok samples.three_rules
                      defaultFlags "addons/reference-addon") →
         match e with
         | EvStat d | EvLoad d _ _ => path_IsAbs d = true
         | _ => True
         end.
Proof.
  assert (Habs : ∀ dir r, filepath_Abs samples.world_ok dir = inl r →
                          path_IsAbs r = true).
  { intros dir r H. injection H as <-. reflexivity. }
  split; [exact Habs|].
  exact (validateMain_uses_absolute_path samples.world_ok samples.three_rules
           defaultFlags "addons/reference-addon" Habs).
Defined.


(** ** Versions that [verifyVersion] accepts *)

Section version_facts.
Import wording.

Lemma span_digits_split (v t rest : string) :
  semver.span_digits v = (t, rest) →
  v = t +:+ rest ∧ all_digits t = true
  ∧ ∀ c r, rest = String c r → semver.is_digit c = false.
Proof.
  revert t rest. induction v as [|c v IH]; intros t rest; simpl.
  - intros [= <- <-]. done.
  - destruct (semver.is_digit c) eqn:Ec.
    + destruct (semver.span_digits v) as [t' rest'] eqn:Es.
      intros [= <- <-]. destruct (IH _ _ eq_refl) as (-> & Hd & Hr).
      split_and!; [done| |done]. simpl. by rewrite Ec.
    + intros [= <- <-]. split_and!; [done..|]. by intros c' r [= <- _].
Qed.

Lemma parseInt_split (v t rest : string) :
  semver.parseInt v = Some (t, rest) →
  v = t +:+ rest ∧ all_digits t = true
  ∧ ∃ c s, v = String c s ∧ semver.is_digit c = true
           ∧ (c = "0"%char → ∀ c' s', s = String c' s' →
                             semver.is_digit c' = false).
Proof.
  unfold semver.parseInt. destruct v as [|c s]; [done|].
  destruct (semver.is_digit c) eqn:Ec; [|done]. cbn [negb].
  destruct (semver.span_digits (String c s)) as [t' rest'] eqn:Es.
  destruct (Ascii.eqb c "0" && negb (String.length t' =? 1)%nat)%bool eqn:Ez;
    [done|].
  intros [= <- <-]. destruct (span_digits_split _ _ _ Es) as (Hv & Hd & Hr).
  split_and!; [done..|]. exists c, s. split_and!; [done..|].
  intros -> c' s' ->. simpl in Ez.
  cbn [semver.span_digits] in Es. rewrite Ec in Es.
  destruct (semver.is_digit c') eqn:Ec'; [|done].
  destruct (semver.span_digits s') as [t2 r2]. injection Es as <- <-.
  simpl in Ez. discriminate.
Qed.

(** X12. A version that [verifyVersion] accepts is empty, is ["latest"]
    or begins with a digit, and a leading zero is not followed by a
    digit: a version written with the [v], as in ["v1.0.0"], and one with
    leading zeros, as in ["01.2.3"], are rejected. *)
Theorem verifyVersion_starts_with_digit (version : string) :
  verifyVersion version = None →
  version = "" ∨ version = "latest"
  ∨ ∃ c rest, version = String c rest ∧ semver.is_digit c = true
              ∧ (c = "0"%char → ∀ c' rest', rest = String c' rest' →
                                semver.is_digit c' = false).
Proof.
  intros H. apply verifyVersion_with_nil_iff in H as [H|[H|H]]; [auto..|].
  right; right. rewrite append_cons, append_nil_l in H.
  unfold semver.IsValid, semver.parse in H.
  destruct (semver.parseInt version) as [[t rest]|] eqn:E; [|done].
  by destruct (parseInt_split _ _ _ E) as (_ & _ & Hc).
Qed.

Lemma verifyVersion_starts_with_digit_witness :
  verifyVersion "2.1.0" = None
  ∧ ("2.1.0" = "" ∨ "2.1.0" = "latest"
     ∨ ∃ c rest, "2.1.0" = String c rest ∧ semver.is_digit c = true
                 ∧ (c = "0"%char → ∀ c' rest', rest = String c' rest' →
                                   semver.is_digit c' = false)).
Proof.
  split; [vm_compute; reflexivity|].
  apply (verifyVersion_starts_with_digit "2.1.0"). vm_compute; reflexivity.
Defined.

Lemma digit_version_char (c : ascii) :
  semver.is_digit c = true → version_char c = true.
Proof.
  unfold semver.is_digit, version_char, semver.isIdentChar. cbv zeta.
  intros ->. by rewrite !orb_true_r.
Qed.

Lemma version_chars_app (a b : string) :
  version_chars (a +:+ b) = (version_chars a && version_chars b)%bool.
Proof.
  induction a as [|c a IH]; [done|].
  rewrite append_cons. simpl. by rewrite IH, andb_assoc.
Qed.

Lemma all_digits_version_chars (t : string) :
  all_digits t = true → version_chars t = true.
Proof.
  induction t as [|c t IH]; [done|]. simpl. intros [Hc Ht]%andb_prop.
  by rewrite (digit_version_char _ Hc), IH.
Qed.

Lemma prerelease_loop_chars (v cur rest : string) :
  semver.prerelease_loop v cur = Some rest →
  ∃ pre, v = pre +:+ rest ∧ version_chars pre = true.
Proof.
  revert cur. induction v as [|c v IH]; intros cur; simpl.
  - destruct (_ || _)%bool; [done|]. intros [= <-]. by exists "".
  - destruct (Ascii.eqb c "+") eqn:Ep.
    { destruct (_ || _)%bool; [done|]. intros [= <-]. by exists "". }
    destruct (semver.isIdentChar c) eqn:Ei; simpl.
    + assert (Hc : version_char c = true) by (unfold version_char; by rewrite Ei).
      destruct (Ascii.eqb c ".").
      * destruct (_ || _)%bool; [done|]. intros H.
        destruct (IH _ H) as (pre & -> & Hpre). exists (String c pre).
        split; [done|]. simpl. by rewrite Hc.
      * intros H. destruct (IH _ H) as (pre & -> & Hpre). exists (String c pre).
        split; [done|]. simpl. by rewrite Hc.
    + destruct (Ascii.eqb c ".") eqn:Ed; simpl; [|done].
      assert (Hc : version_char c = true)
        by (unfold version_char; by rewrite Ed, orb_true_r).
      destruct (_ || _)%bool; [done|]. intros H.
      destruct (IH _ H) as (pre & -> & Hpre). exists (String c pre).
      split; [done|]. simpl. by rewrite Hc.
Qed.

Lemma build_loop_chars (v cur rest : string) :
  semver.build_loop v cur = Some rest → version_chars v = true ∧ rest = "".
Proof.
  revert cur. induction v as [|c v IH]; intros cur; simpl.
  - destruct (String.eqb cur ""); [done|]. by intros [= <-].
  - destruct (semver.isIdentChar c) eqn:Ei; simpl.
    + assert (Hc : version_char c = true) by (unfold version_char; by rewrite Ei).
      rewrite Hc. destruct (Ascii.eqb c ".").
      * destruct (String.eqb cur ""); [done|]. apply IH.
      * apply IH.
    + destruct (Ascii.eqb c ".") eqn:Ed; simpl; [|done].
      assert (Hc : version_char c = true)
        by (unfold version_char; by rewrite Ed, orb_true_r).
      rewrite Hc. destruct (String.eqb cur ""); [done|]. apply IH.
Qed.

Ltac split_ascii c :=
  destruct c as [[] [] [] [] [] [] [] []]; cbv beta iota zeta.

Lemma build_part_chars (v rest : string) :
  match v with
  | String "+" _ => semver.parseBuild v
  | _ => Some v
  end = Some rest →
  String.eqb rest "" = true →
  version_chars v = true.
Proof.
  destruct v as [|c v'].
  - intros [= <-] _. done.
  - split_ascii c; try (intros [= <-] H; simpl in H; discriminate).
    unfold semver.parseBuild. intros H _.
    apply build_loop_chars in H as [H _]. simpl. by rewrite H.
Qed.

Lemma parse_tail_chars (v : string) :
  semver.parse_tail v = true → version_chars v = true.
Proof.
  unfold semver.parse_tail. destruct v as [|c v']; [done|].
  split_ascii c; try (intros H; simpl in H; discriminate).
  - unfold semver.parseBuild.
    destruct (semver.build_loop v' "") as [v2|] eqn:E; [|done]. intros _.
    apply build_loop_chars in E as [E _]. simpl. by rewrite E.
  - unfold semver.parsePrerelease.
    destruct (semver.prerelease_loop v' "") as [v1|] eqn:E;
      cbv beta iota zeta; [|done].
    destruct (prerelease_loop_chars _ _ _ E) as (pre & -> & Hpre).
    destruct (match v1 with
              | String "+" _ => semver.parseBuild v1
              | _ => Some v1
              end) as [v2|] eqn:E2; [|done].
    intros H. rewrite <- append_cons, version_chars_app. simpl.
    by rewrite Hpre, (build_part_chars _ _ E2 H).
Qed.

(** The characters of a version after a number: nothing, or a dot and
    what [next] accepts. *)
Lemma after_number_chars (r : string) (next : string → bool) :
  match r with
  | EmptyString => true
  | String "." v1 => next v1
  | String _ _ => false
  end = true →
  r = "" ∨ ∃ v1, r = String "." v1 ∧ next v1 = true.
Proof.
  destruct r as [|c v1]; [by left|].
  split_ascii c; try (intros H; discriminate H). intros H. right. by exists v1.
Qed.

Lemma IsValid_chars (version : string) :
  semver.IsValid (String "v" version) = true → version_chars version = true.
Proof.
  unfold semver.IsValid, semver.parse.
  destruct (semver.parseInt version) as [[t1 r1]|] eqn:E1; [|done].
  destruct (parseInt_split _ _ _ E1) as (-> & Hd1%all_digits_version_chars & _).
  rewrite version_chars_app, Hd1. simpl. intros H.
  apply (after_number_chars r1
           (λ v1, match semver.parseInt v1 with
                  | None => false
                  | Some (_, EmptyString) => true
                  | Some (_, String "." v2) =>
                      match semver.parseInt v2 with
                      | None => false
                      | Some (_, v3) => semver.parse_tail v3
                      end
                  | Some _ => false
                  end)) in H as [->|(v1 & -> & H)]; [done|].
  simpl.
  destruct (semver.parseInt v1) as [[t2 r2]|] eqn:E2; [|done].
  destruct (parseInt_split _ _ _ E2) as (-> & Hd2%all_digits_version_chars & _).
  rewrite version_chars_app, Hd2. simpl.
  apply (after_number_chars r2
           (λ v2, match semver.parseInt v2 with
                  | None => false
                  | Some (_, v3) => semver.parse_tail v3
                  end)) in H as [->|(v2 & -> & H)]; [done|].
  simpl.
  destruct (semver.parseInt v2) as [[t3 r3]|] eqn:E3; [|done].
  destruct (parseInt_split _ _ _ E3) as (-> & Hd3%all_digits_version_chars & _).
  rewrite version_chars_app, Hd3. simpl. by apply parse_tail_chars.
Qed.

(** X13. A version that [verifyVersion] accepts holds only letters,
    digits, hyphens, dots and plus signs: no white space, no slash, no
    other character reaches the metadata loader. *)
Theorem verifyVersion_characters (version : string) :
  verifyVersion version = None → version_chars version = true.
Proof.
  intros H. apply verifyVersion_with_nil_iff in H as [->|[->|H]]; [done..|].
  rewrite append_cons, append_nil_l in H. by apply IsValid_chars.
Qed.

Lemma verifyVersion_characters_witness :
  verifyVersion "1.0.0-rc.1+build.5" = None
  ∧ version_chars "1.0.0-rc.1+build.5" = true.
Proof.
  split; [vm_compute; reflexivity|].
  apply (verifyVersion_characters "1.0.0-rc.1+build.5"). vm_compute; reflexivity.
Defined.

End version_facts.

(** ** When the rules run *)

(** X14. The rules run exactly when everything before them succeeded:
    the path resolved and is a directory, the environment and the
    version are valid, the metadata is loaded and has an index image,
    the bundles are extracted and the filter is built. There is no run
    on a partial subject. *)
Theorem rules_run_iff_prepared (w : World) (reg : defaultRegistry)
    (flags : Flags) (arg0 : string) :
  EvValidateCLI ∈ trace (validateMain w reg flags arg0)
  ↔ ∃ d meta indexImage bundles f,
      (path_IsAbs arg0 = true ∧ d = arg0
       ∨ path_IsAbs arg0 = false ∧ filepath_Abs w arg0 = inl d)
      ∧ os_Stat w d = inl true
      ∧ verifyEnv (validateEnv flags) = None
      ∧ verifyVersion (validateVersion flags) = None
      ∧ MetaLoader_Load w d (validateEnv flags) (validateVersion flags) = inl meta
      ∧ IndexImage meta = Some indexImage
      ∧ ExtractBundles w indexImage (OperatorName meta) = inl bundles
      ∧ NewFilter reg (validateDisabled flags) (validateEnabled flags) = inl f.
Proof.
  split.
  - pose proof (validateMain_ends w reg flags arg0) as Hends.
    destruct Hends; unfold trace; cbn [fst]; open_run; intros Hin;
      set_unfold in Hin; destruct_or!; try discriminate;
      eexists _, _, _, _, _; split_and!; try done;
      first [left; split; congruence | right; split; congruence].
  - intros (d & meta & i & bundles & f & Hd & Hs & He & Hv & Hl & Hi & Hx & Hf).
    assert (Hp : ∃ t0, parseAddonDir w arg0 = (t0, inl (inl d))).
    { unfold parseAddonDir. destruct Hd as [[-> ->]|[-> ->]]; cbn; by eexists. }
    destruct Hp as [t0 Hp].
    assert (Hfl : filtered w reg flags arg0
                    ((((t0 ++ [EvStat d])
                         ++ [EvLoad d (validateEnv flags) (validateVersion flags)])
                        ++ [EvExtractBundles i (OperatorName meta)])
                       ++ [EvNewFilter (validateDisabled flags)
                             (validateEnabled flags)])
                    meta bundles f).
    { eexists; split_and!; [|done|done].
      eexists _, _; split_and!; [|done|done|done].
      eexists _, _; split_and!; [|done|done].
      eexists _, _; split_and!; [done| |done].
      by apply verifyArgsAndFlags_accepts. }
    destruct (ValidateCLI reg (NewMetaBundle meta bundles) f)
      as [[[|] [|e errs]]|msg] eqn:Hcli.
    + rewrite (ends_validateMain _ _ _ _ _
                 (ends_success w reg flags arg0 _ meta bundles f Hfl Hcli)).
      unfold trace; cbn [fst]. apply elem_of_app; right. apply list_elem_of_here.
    + rewrite (ends_validateMain _ _ _ _ _
                 (ends_hard_errors w reg flags arg0 _ meta bundles f _ _ Hfl Hcli
                    ltac:(done))).
      unfold trace; cbn [fst]. apply elem_of_app; right. apply list_elem_of_here.
    + rewrite (ends_validateMain _ _ _ _ _
                 (ends_failures w reg flags arg0 _ meta bundles f Hfl Hcli)).
      unfold trace; cbn [fst]. apply elem_of_app; right. apply list_elem_of_here.
    + rewrite (ends_validateMain _ _ _ _ _
                 (ends_hard_errors w reg flags arg0 _ meta bundles f _ _ Hfl Hcli
                    ltac:(done))).
      unfold trace; cbn [fst]. apply elem_of_app; right. apply list_elem_of_here.
    + rewrite (ends_validateMain _ _ _ _ _
                 (ends_rule_panic w reg flags arg0 _ meta bundles f msg Hfl Hcli)).
      unfold trace; cbn [fst]. apply elem_of_app; right. apply list_elem_of_here.
Qed.
